(** * AIwithPython: the mean-normalization lab and the PyTorch training loop

    A shallow embedding of the original logic of the two notebooks:

    - the "Mean Normalization" notebook: column-wise mean and standard
      deviation of a rank-2 array, the broadcast normalization
      [X_norm = (X - ave_cols) / std_cols], and the separation of the rows
      of [X_norm] into a training, a cross-validation and a test set with
      boolean masks over a random permutation [row_indices];
    - the "Training Neural Networks" notebook: the nested training loop
      that prints a loss line every [print_every] steps.

    NumPy and PyTorch themselves are not part of the repository.  The array
    operations the notebook calls are modelled by their documented
    behaviour on the shapes the notebook uses; the network, the criterion
    and the optimizer are parameters of the training loop. *)

From Stdlib Require Import List Arith ZArith Bool Lia Permutation Sorted.
From Stdlib Require Import QArith Reals Lra.
Import ListNotations.
#[local] Open Scope nat_scope.

Set Implicit Arguments.

(** ** Exceptions and results *)

Inductive exn : Type :=
| IndexError          (* boolean index did not match the indexed axis *)
| ValueError          (* operands could not be broadcast together *)
| ZeroDivisionError.  (* raised only by the guarded division *)

Inductive result (T : Type) : Type :=
| Ok (x : T)
| Raise (e : exn).

Arguments Ok {T} x.
Arguments Raise {T} e.

Definition bind {A B : Type} (r : result A) (k : A -> result B) : result B :=
  match r with
  | Ok x => k x
  | Raise e => Raise e
  end.

Notation "x <- r ;; k" := (bind r (fun x => k))
  (at level 61, r at next level, right associativity).

(** ** Rank-2 arrays

    A rank-2 array keeps its number of columns next to its rows, so that an
    array of shape [(0, m)] still has [m] columns. *)

Record ndarray2 (T : Type) : Type := mk_ndarray2 {
  shape1 : nat;
  data : list (list T)
}.

Definition shape0 {T} (a : ndarray2 T) : nat := length (data a).

Definition shape {T} (a : ndarray2 T) : nat * nat := (shape0 a, shape1 a).

(** Every row has [shape1] entries. *)
Definition wf {T} (a : ndarray2 T) : bool :=
  forallb (fun row => length row =? shape1 a) (data a).


(** Column [j] of the array, top to bottom: [a[:, j]]. *)
Definition column {T} (d : T) (a : ndarray2 T) (j : nat) : list T :=
  map (fun row => nth j row d) (data a).

(** ** The NumPy operations the notebook calls *)

Module np.

(** *** Boolean masks and boolean-mask indexing *)

(** [np.arange(n)], the integers [0 .. n-1]. *)
Definition arange (n : nat) : list Z := map Z.of_nat (seq 0 n).

(** [a < k], [a > k], [a <= k], [a >= k] for a rank-1 integer array and
    a scalar. *)
Definition less (a : list Z) (k : Z) : list bool := map (fun x => x <? k)%Z a.
Definition greater (a : list Z) (k : Z) : list bool := map (fun x => x >? k)%Z a.
Definition less_equal (a : list Z) (k : Z) : list bool := map (fun x => x <=? k)%Z a.
Definition greater_equal (a : list Z) (k : Z) : list bool := map (fun x => x >=? k)%Z a.

(** [np.logical_and(p, q)] on two masks of one shape. *)
Definition logical_and (p q : list bool) : list bool :=
  map (fun pq => fst pq && snd pq) (combine p q).

(** The rows kept by a mask, in the order of the rows. *)
Fixpoint compress {A} (mask : list bool) (rows : list A) : list A :=
  match mask, rows with
  | b :: mask', r :: rows' =>
      if b then r :: compress mask' rows' else compress mask' rows'
  | _, _ => []
  end.

(** [a[mask, :]]: a boolean index must have the length of axis 0. *)
Definition getitem_mask {T} (a : ndarray2 T) (mask : list bool)
  : result (ndarray2 T) :=
  if length mask =? shape0 a
  then Ok {| shape1 := shape1 a; data := compress mask (data a) |}
  else Raise IndexError.

(** [np.flatnonzero(mask)]: the positions at which the mask is true,
    counted from [i]. *)
Fixpoint nonzero_from (i : nat) (mask : list bool) : list nat :=
  match mask with
  | [] => []
  | b :: mask' =>
      if b then i :: nonzero_from (S i) mask' else nonzero_from (S i) mask'
  end.

Definition flatnonzero (mask : list bool) : list nat := nonzero_from 0 mask.

(** [np.count_nonzero(mask)]. *)
Definition count_nonzero (mask : list bool) : nat :=
  length (filter (fun b => b) mask).

(** [a[idx, :]] for a list of row positions. *)
Definition take_rows {T} (a : ndarray2 T) (idx : list nat) : ndarray2 T :=
  {| shape1 := shape1 a; data := map (fun i => nth i (data a) []) idx |}.

(** *** Arithmetic on real-valued arrays

    The notebook computes in binary64; the embedding computes in the real
    numbers, where [x / 0] is the total division of the Reals library. *)


(** [np.sum] of a rank-1 array. *)
Definition sum (l : list R) : R := fold_right Rplus 0%R l.

(** [np.mean] of a rank-1 array: the sum over the number of entries. *)
Definition mean (l : list R) : R := (sum l / INR (length l))%R.

(** [np.var] of a rank-1 array with the default [ddof=0]: the mean of the
    squared deviations from the mean. *)
Definition var (l : list R) : R :=
  mean (map (fun x => ((x - mean l) * (x - mean l))%R) l).

(** [np.std]: the square root of [np.var], the population standard
    deviation. *)
Definition std (l : list R) : R := sqrt (var l).

(** [a.mean(axis=0)] and [a.std(axis=0)]: one entry per column. *)
Definition mean_axis0 (a : ndarray2 R) : list R :=
  map (fun j => mean (column 0%R a j)) (seq 0 (shape1 a)).

Definition std_axis0 (a : ndarray2 R) : list R :=
  map (fun j => std (column 0%R a j)) (seq 0 (shape1 a)).

(** [np.mean(a)] of the flattened array. *)
Definition mean_all (a : ndarray2 R) : R := mean (concat (data a)).

(** A binary operation entry by entry on two rank-1 arrays. *)
Definition zip_with {A B C} (op : A -> B -> C) (u : list A) (v : list B)
  : list C :=
  map (fun xy => op (fst xy) (snd xy)) (combine u v).

(** Broadcasting a binary operation over an array of shape [(n, m)] and a
    vector of shape [(k,)]: entry by entry along the rows when [k = m]; a
    vector of one entry, or rows of one entry, are stretched; any other
    pair of shapes raises. *)
Definition broadcast {A B C} (op : A -> B -> C) (a : ndarray2 A) (v : list B)
  : result (ndarray2 C) :=
  if length v =? shape1 a then
    Ok {| shape1 := shape1 a;
          data := map (fun row => zip_with op row v) (data a) |}
  else
    match v with
    | [c] => Ok {| shape1 := shape1 a;
                   data := map (map (fun x => op x c)) (data a) |}
    | _ =>
        if shape1 a =? 1 then
          Ok {| shape1 := length v;
                data := map (fun row => match row with
                                        | x :: _ => map (op x) v
                                        | [] => []
                                        end) (data a) |}
        else Raise ValueError
    end.

(** [a - v] and [a / v]. *)
Definition subtract (a : ndarray2 R) (v : list R) : result (ndarray2 R) :=
  broadcast Rminus a v.

Definition divide (a : ndarray2 R) (v : list R) : result (ndarray2 R) :=
  broadcast Rdiv a v.

(** Division with a guard on the divisor. *)
Definition checked_div (x y : R) : result R :=
  if Req_dec_T y 0%R then Raise ZeroDivisionError else Ok (x / y)%R.

(** The first exception of a list of results, or all their values. *)
Fixpoint sequence {A} (l : list (result A)) : result (list A) :=
  match l with
  | [] => Ok []
  | r :: l' => x <- r ;; xs <- sequence l' ;; Ok (x :: xs)
  end.

(** [a / v] where every single division is guarded. *)
Definition divide_checked (a : ndarray2 R) (v : list R)
  : result (ndarray2 R) :=
  q <- broadcast checked_div a v ;;
  rows <- sequence (map (@sequence R) (data q)) ;;
  Ok {| shape1 := shape1 q; data := rows |}.

End np.

(** ** Data separation *)

Module DataSeparation.

(** [row_indices < 600] *)
Definition train_mask (row_indices : list Z) : list bool :=
  np.less row_indices 600.

(** [np.logical_and(row_indices > 600, row_indices <= 800)] *)
Definition crossVal_mask (row_indices : list Z) : list bool :=
  np.logical_and (np.greater row_indices 600) (np.less_equal row_indices 800).

(** [row_indices >= 800] *)
Definition test_mask (row_indices : list Z) : list bool :=
  np.greater_equal row_indices 800.

Section Sets.
Context {T : Type}.
Variable X_norm : ndarray2 T.
Variable row_indices : list Z.

Definition X_train : result (ndarray2 T) :=
  np.getitem_mask X_norm (train_mask row_indices).

Definition X_crossVal : result (ndarray2 T) :=
  np.getitem_mask X_norm (crossVal_mask row_indices).

Definition X_test : result (ndarray2 T) :=
  np.getitem_mask X_norm (test_mask row_indices).
End Sets.

(** Row position [i] of [X_norm] is selected by a mask. *)
Definition selects (mask : list bool) (i : nat) : bool := nth i mask false.

(** The number of the three sets that row position [i] is placed in. *)
Definition membership_count (row_indices : list Z) (i : nat) : nat :=
  Nat.b2n (selects (train_mask row_indices) i)
  + Nat.b2n (selects (crossVal_mask row_indices) i)
  + Nat.b2n (selects (test_mask row_indices) i).

(** A selection lists the rows of [X] at the true positions of its mask,
    by increasing row position. *)
Definition lists_in_row_order {T} (X : ndarray2 T) (mask : list bool)
  (sel : result (ndarray2 T)) : Prop :=
  sel = Ok (np.take_rows X (np.flatnonzero mask))
  /\ StronglySorted lt (np.flatnonzero mask)
  /\ forall i, In i (np.flatnonzero mask) <-> selects mask i = true.

(** An array of [n] rows in which row [i] holds its own position, so that
    rows can be told apart. *)
Definition tagged_rows (n : nat) : ndarray2 Z :=
  {| shape1 := 1; data := map (fun i => [i]) (np.arange n) |}.

(** How often a row occurs in an array. *)
Definition occurrences (row : list Z) (a : ndarray2 Z) : nat :=
  count_occ (list_eq_dec Z.eq_dec) (data a) row.

End DataSeparation.

(** ** Mean normalization *)

Module MeanNormalization.

(** [ave_cols = X.mean(axis=0)] *)
Definition ave_cols (X : ndarray2 R) : list R := np.mean_axis0 X.

(** [std_cols = X.std(axis=0)] *)
Definition std_cols (X : ndarray2 R) : list R := np.std_axis0 X.

(** [X_norm = (X - ave_cols) / std_cols] *)
Definition X_norm (X : ndarray2 R) : result (ndarray2 R) :=
  D <- np.subtract X (ave_cols X) ;; np.divide D (std_cols X).

(** The array that the line evaluates to: every row minus [ave_cols] and
    over [std_cols], entry by entry. *)
Definition normalized (X : ndarray2 R) : ndarray2 R :=
  {| shape1 := shape1 X;
     data := map (fun row =>
                    np.zip_with Rdiv (np.zip_with Rminus row (ave_cols X))
                                (std_cols X))
                 (data X) |}.

(** The same line with the guarded division. *)
Definition X_norm_checked (X : ndarray2 R) : result (ndarray2 R) :=
  D <- np.subtract X (ave_cols X) ;; np.divide_checked D (std_cols X).

(** A small array for examples: columns [0, 2] and [1, 5]. *)
Definition X_small : ndarray2 R :=
  {| shape1 := 2; data := [[0; 1]; [2; 5]]%R |}.

(** An array whose only column is constant. *)
Definition X_flat : ndarray2 R :=
  {| shape1 := 1; data := [[1]; [1]]%R |}.

End MeanNormalization.

(** ** The training loop *)

Module Training.

(** [epochs = 3], [print_every = 40] *)
Definition epochs : nat := 3.
Definition print_every : Z := 40.

(** A printed line: ["Epoch: {}/{}...  Loss: {:.4f}"]. *)
Record line (Loss : Type) : Type := mk_line {
  epoch_no : nat;
  epoch_of : nat;
  loss_value : Loss
}.

(** The variables of the loop.  [trace] has one entry for every executed
    iteration of the inner loop: the line that iteration printed, if any. *)
Record loop_state (Model Loss : Type) : Type := mk_loop_state {
  steps : Z;
  running_loss : Loss;
  model : Model;
  trace : list (option (line Loss))
}.

(** Where the interpreter stands: before the header of the outer loop with
    the next value of [e], inside the inner loop with the batches the
    iterator still holds, or past the loop. *)
Inductive control (Batch : Type) : Type :=
| NextEpoch (e : nat)
| NextBatch (e : nat) (it : list Batch)
| Done.

Arguments NextEpoch {Batch} e.
Arguments NextBatch {Batch} e it.
Arguments Done {Batch}.

Record machine (Model Batch Loss : Type) : Type := mk_machine {
  ctl : control Batch;
  st : loop_state Model Loss
}.

Section Loop.

Variables Model Batch Loss : Type.

(** The float operations of the loop: [0], [+] and [/ print_every]. *)
Variable fzero : Loss.
Variable fadd : Loss -> Loss -> Loss.
Variable fdiv : Loss -> Z -> Loss.

(** One optimization step on a batch ([zero_grad], forward pass,
    criterion, backward pass, [optimizer.step()]): the updated network and
    optimizer, and [loss.item()]. *)
Variable train_step : Model -> Batch -> Model * Loss.

(** [iter(trainloader)] in epoch [e]: the batches in the order drawn. *)
Variable trainloader : nat -> list Batch.

(** The body of the inner loop. *)
Definition batch_body (e : nat) (s : loop_state Model Loss) (b : Batch)
  : loop_state Model Loss :=
  let steps' := (steps s + 1)%Z in
  let (model', loss) := train_step (model s) b in
  let running_loss' := fadd (running_loss s) loss in
  if (steps' mod print_every =? 0)%Z then
    {| steps := steps';
       running_loss := fzero;
       model := model';
       trace := trace s ++
                [Some {| epoch_no := e + 1; epoch_of := epochs;
                         loss_value := fdiv running_loss' print_every |}] |}
  else
    {| steps := steps';
       running_loss := running_loss';
       model := model';
       trace := trace s ++ [None] |}.

(** [running_loss = 0] at the head of the outer loop's body. *)
Definition reset_running_loss (s : loop_state Model Loss)
  : loop_state Model Loss :=
  {| steps := steps s; running_loss := fzero; model := model s;
     trace := trace s |}.

(** The body of the outer loop. *)
Definition epoch_body (s : loop_state Model Loss) (e : nat)
  : loop_state Model Loss :=
  fold_left (batch_body e) (trainloader e) (reset_running_loss s).

(** [steps = 0] before the loop. *)
Definition initial (m : Model) : loop_state Model Loss :=
  {| steps := 0; running_loss := fzero; model := m; trace := [] |}.

(** The whole cell: [for e in range(epochs): ...]. *)
Definition train (m : Model) : loop_state Model Loss :=
  fold_left epoch_body (seq 0 epochs) (initial m).

(** The lines on standard output, in order. *)
Definition stdout (s : loop_state Model Loss) : list (line Loss) :=
  flat_map (fun o => match o with Some l => [l] | None => [] end) (trace s).

(** *** The loop as a machine that takes one step at a time *)

Definition step (m : machine Model Batch Loss)
  : option (machine Model Batch Loss) :=
  match ctl m with
  | NextEpoch e =>
      if e <? epochs
      then Some {| ctl := NextBatch e (trainloader e);
                   st := reset_running_loss (st m) |}
      else Some {| ctl := Done; st := st m |}
  | NextBatch e [] => Some {| ctl := NextEpoch (S e); st := st m |}
  | NextBatch e (b :: it) =>
      Some {| ctl := NextBatch e it; st := batch_body e (st m) b |}
  | Done => None
  end.

Fixpoint run (fuel : nat) (m : machine Model Batch Loss)
  : option (loop_state Model Loss) :=
  match ctl m with
  | Done => Some (st m)
  | _ =>
      match fuel with
      | O => None
      | S fuel' =>
          match step m with
          | Some m' => run fuel' m'
          | None => None
          end
      end
  end.

Definition start (m : Model) : machine Model Batch Loss :=
  {| ctl := NextEpoch 0; st := initial m |}.

(** *** Batches, losses and windows of the run *)

(** All batches of the run, in the order the loop meets them. *)
Definition all_batches : list Batch :=
  concat (map trainloader (seq 0 epochs)).

(** The loss of every step over a sequence of batches, from model [m]. *)
Fixpoint step_losses (m : Model) (bs : list Batch) : list Loss :=
  match bs with
  | [] => []
  | b :: bs' =>
      let (m', loss) := train_step m b in loss :: step_losses m' bs'
  end.

(** [running_loss] after adding the losses [ls], in order, to [0]. *)
Definition accumulate (ls : list Loss) : Loss := fold_left fadd ls fzero.

(** The losses of steps [a+1 .. b] (steps are counted from 1). *)
Definition window (ls : list Loss) (a b : nat) : list Loss :=
  firstn (b - a) (skipn a ls).

(** An iteration printed a line. *)
Definition printed (o : option (line Loss)) : bool :=
  match o with Some _ => true | None => false end.

(** For the first [n] steps, whether the step number is a multiple of
    [print_every]. *)
Definition schedule (n : nat) : list bool :=
  map (fun k => (Z.of_nat (S k) mod print_every =? 0)%Z) (seq 0 n).

(** The network after the optimization steps on a list of batches. *)
Definition model_after (m : Model) (bs : list Batch) : Model :=
  fold_left (fun m' b => fst (train_step m' b)) bs m.

(** The number of steps taken before epoch [e] begins. *)
Definition epoch_start (e : nat) : nat :=
  length (concat (map trainloader (seq 0 e))).

(** [print_every] as a number of steps. *)
Definition period : nat := Z.to_nat print_every.

(** The line the loop prints at step [t] of epoch [e], when it prints one:
    [running_loss] holds the losses since it was last set to 0, at the
    line before or at the head of the epoch, whichever came later. *)
Definition line_at (m : Model) (e t : nat) : line Loss :=
  {| epoch_no := e + 1;
     epoch_of := epochs;
     loss_value :=
       fdiv (accumulate
               (window (step_losses m all_batches)
                       (Nat.max (epoch_start e) (t - period)) t))
            print_every |}.

(** The line one expects at step [t] if [running_loss] held the losses of
    all the steps since the line before, over [print_every]. *)
Definition claimed_line_at (m : Model) (e t : nat) : line Loss :=
  {| epoch_no := e + 1;
     epoch_of := epochs;
     loss_value :=
       fdiv (accumulate (window (step_losses m all_batches) (t - period) t))
            print_every |}.

(** What iteration [k+1], in epoch [e], leaves in the trace. *)
Definition entry_at (m : Model) (e k : nat) : option (line Loss) :=
  if (Z.of_nat (S k) mod print_every =? 0)%Z
  then Some (line_at m e (S k)) else None.

(** The step counter counts the iterations, and a line was printed in
    exactly the iterations the schedule names. *)
Definition on_schedule (s : loop_state Model Loss) : Prop :=
  steps s = Z.of_nat (length (trace s))
  /\ map printed (trace s) = schedule (length (trace s)).

(** After [t] steps from model [m]: the counter, the network and the
    trace so far. *)
Definition logged (m : Model) (t : nat) (s : loop_state Model Loss) : Prop :=
  steps s = Z.of_nat t
  /\ length (trace s) = t
  /\ model s = model_after m (firstn t all_batches)
  /\ forall k e, k < t -> epoch_start e <= k < epoch_start (S e) ->
       nth k (trace s) None = entry_at m e k.

(** After [t] steps, inside epoch [e]: [running_loss] holds the losses
    since step [a], the head of the epoch or the last multiple of
    [print_every]. *)
Definition accumulating (m : Model) (e t : nat) (s : loop_state Model Loss)
  : Prop :=
  exists a,
    epoch_start e <= a <= t
    /\ (a = epoch_start e \/ (Z.of_nat a mod print_every = 0)%Z)
    /\ (forall u, a < u <= t -> (Z.of_nat u mod print_every <> 0)%Z)
    /\ running_loss s = accumulate (window (step_losses m all_batches) a t).

(** Steps the machine takes to run the whole cell: two per epoch for the
    loop headers, one per batch, one to leave the outer loop. *)
Definition fuel_needed : nat := 1 + 2 * epochs + length all_batches.

End Loop.

(** *** A run with exact rational losses

    The network is left out: a batch is the loss its step reports. *)

Definition q_add (x y : Q) : Q := Qred (x + y).
Definition q_div (x : Q) (k : Z) : Q := Qred (x / inject_Z k).
Definition q_step (m : unit) (b : Q) : unit * Q := (m, b).

(** MNIST's training set in batches of 64: 938 batches in every epoch,
    here each with loss 1. *)
Definition mnist_batches : nat := 938.
Definition unit_loader (e : nat) : list Q := repeat 1%Q mnist_batches.

Definition unit_run : loop_state unit Q :=
  train 0%Q q_add q_div q_step unit_loader tt.

End Training.

(** ** The output of the training loop, line by line *)

Module TrainingLog.

Import Training.

(** The epoch numbers of the printed lines, in order. *)
Definition labels {Model Loss} (s : loop_state Model Loss) : list nat :=
  map (@epoch_no Loss) (stdout s).

(** How many multiples of [print_every] lie among the steps of epoch [e]. *)
Definition lines_in_epoch {Batch} (trainloader : nat -> list Batch) (e : nat)
  : nat :=
  Z.to_nat (Z.of_nat (epoch_start trainloader (S e)) / print_every
            - Z.of_nat (epoch_start trainloader e) / print_every).

(** A loader with 80 batches in every epoch, each with loss 1. *)
Definition aligned_loader (e : nat) : list Q := repeat 1%Q 80.

End TrainingLog.

(** ** The checks printed after the normalization *)

Module Checks.

Import MeanNormalization.

(** [a.min()] and [a.max()] of a rank-1 array, which NumPy refuses to
    reduce when it is empty. *)
Definition amin_total (l : list R) : R :=
  match l with
  | [] => 0%R
  | x :: l' => fold_left Rmin l' x
  end.

Definition amax_total (l : list R) : R :=
  match l with
  | [] => 0%R
  | x :: l' => fold_left Rmax l' x
  end.

Definition amin (l : list R) : result R :=
  match l with
  | [] => Raise ValueError
  | _ :: _ => Ok (amin_total l)
  end.

Definition amax (l : list R) : result R :=
  match l with
  | [] => Raise ValueError
  | _ :: _ => Ok (amax_total l)
  end.

(** [a.min(axis=0)] and [a.max(axis=0)]: one entry per column. *)
Definition min_axis0 (a : ndarray2 R) : result (list R) :=
  np.sequence (map (fun j => amin (column 0%R a j)) (seq 0 (shape1 a))).

Definition max_axis0 (a : ndarray2 R) : result (list R) :=
  np.sequence (map (fun j => amax (column 0%R a j)) (seq 0 (shape1 a))).

(** [X_norm.min(axis=0).mean()] and [X_norm.max(axis=0).mean()] *)
Definition mean_of_minima (a : ndarray2 R) : result R :=
  v <- min_axis0 a ;; Ok (np.mean v).

Definition mean_of_maxima (a : ndarray2 R) : result R :=
  v <- max_axis0 a ;; Ok (np.mean v).



End Checks.

(** ** The data loader *)

Module Loader.

(** [batch_size=64] *)
Definition batch_size : nat := 64.

(** Consecutive groups of [b] entries, the last one shorter when [b] does
    not divide the length (the loader keeps it: [drop_last] is off).
    [fuel] bounds the number of groups. *)
Fixpoint batched_fuel {A} (fuel b : nat) (l : list A) : list (list A) :=
  match fuel with
  | O => []
  | S fuel' =>
      match l with
      | [] => []
      | _ :: _ => firstn b l :: batched_fuel fuel' b (skipn b l)
      end
  end.

Definition batched {A} (b : nat) (l : list A) : list (list A) :=
  batched_fuel (length l) b l.

(** [iter(trainloader)] with [shuffle=True]: the examples taken in the
    order the sampler drew for this epoch, in batches of [batch_size]. *)
Definition epoch_batches {A} (d : A) (dataset : list A) (order : list nat)
  : list (list A) :=
  batched batch_size (map (fun i => nth i dataset d) order).

(** A data set of 130 examples, numbered. *)
Definition small_dataset : list nat := seq 0 130.

End Loader.

(** ** The network and its predictions *)

Module Network.

(** Hyperparameters for the network. *)
Definition input_size : nat := 784.
Definition hidden_sizes : list nat := [128; 64].
Definition output_size : nat := 10.

(** [nn.Linear(in_features, out_features)]: a weight of shape
    [(out_features, in_features)] and a bias of [out_features] entries. *)
Record Linear : Type := mk_Linear {
  in_features : nat;
  out_features : nat;
  weight : list (list R);
  bias : list R
}.

(** The weight and the bias have the shapes of the layer. *)
Definition linear_ok (L : Linear) : bool :=
  (length (weight L) =? out_features L)
  && forallb (fun w => length w =? in_features L) (weight L)
  && (length (bias L) =? out_features L).

Inductive layer : Type :=
| Lin (L : Linear)
| ReLU.

(** [x @ w], a row against a row of the weight. *)
Definition dot (w x : list R) : R := np.sum (np.zip_with Rmult w x).

(** A layer on a batch, one example per row.  A linear layer refuses a
    batch whose rows do not have [in_features] entries ([None] stands for
    the size-mismatch error). *)
Definition apply_layer (l : layer) (a : ndarray2 R) : option (ndarray2 R) :=
  match l with
  | Lin L =>
      if shape1 a =? in_features L then
        Some {| shape1 := out_features L;
                data := map (fun x => np.zip_with Rplus
                                        (map (fun w => dot w x) (weight L))
                                        (bias L))
                            (data a) |}
      else None
  | ReLU =>
      Some {| shape1 := shape1 a; data := map (map (Rmax 0)) (data a) |}
  end.

(** [nn.Sequential]: the layers one after the other. *)
Fixpoint sequential (layers : list layer) (a : ndarray2 R)
  : option (ndarray2 R) :=
  match layers with
  | [] => Some a
  | l :: layers' =>
      match apply_layer l a with
      | Some b => sequential layers' b
      | None => None
      end
  end.

(** [model = nn.Sequential(OrderedDict([('fc1', ...), ('relu1', ...),
    ('fc2', ...), ('relu2', ...), ('logits', ...)]))] *)
Definition model (fc1 fc2 logits : Linear) : list layer :=
  [Lin fc1; ReLU; Lin fc2; ReLU; Lin logits].

(** The three linear layers have the sizes the hyperparameters give. *)
Definition built (fc1 fc2 logits : Linear) : bool :=
  linear_ok fc1 && linear_ok fc2 && linear_ok logits
  && (in_features fc1 =? input_size)
  && (out_features fc1 =? nth 0 hidden_sizes 0)
  && (in_features fc2 =? nth 0 hidden_sizes 0)
  && (out_features fc2 =? nth 1 hidden_sizes 0)
  && (in_features logits =? nth 1 hidden_sizes 0)
  && (out_features logits =? output_size).

(** [F.softmax(logits, dim=1)] on one row, and on every row. *)
Definition softmax_row (l : list R) : list R :=
  map (fun x => (exp x / np.sum (map exp l))%R) l.

Definition softmax (a : ndarray2 R) : ndarray2 R :=
  {| shape1 := shape1 a; data := map softmax_row (data a) |}.

(** A linear layer with all weights and biases 0. *)
Definition zero_linear (n_in n_out : nat) : Linear :=
  {| in_features := n_in; out_features := n_out;
     weight := repeat (repeat 0%R n_in) n_out;
     bias := repeat 0%R n_out |}.

End Network.

(** ** The autograd example *)

Module Autograd.

(** [x ** k], entry by entry. *)
Definition pow (x : ndarray2 R) (k : nat) : ndarray2 R :=
  {| shape1 := shape1 x; data := map (map (fun v => (v ^ k)%R)) (data x) |}.


(** [y = x**2] and [z = y.mean()] *)
Definition y (x : ndarray2 R) : ndarray2 R := pow x 2.
Definition z (x : ndarray2 R) : R := np.mean_all (y x).








End Autograd.

(** ** The transform of the images *)

Module Transform.

(** [transforms.ToTensor()] on one pixel: a byte becomes a number between
    0 and 1. *)
Definition to_tensor (p : Z) : R := (IZR p / 255)%R.

(** [transforms.Normalize(mean, std)] on one value of a channel. *)
Definition normalize (mean std v : R) : R := ((v - mean) / std)%R.

(** [transforms.Compose([ToTensor(), Normalize((0.5, ...), (0.5, ...))])]
    on a pixel of the one channel MNIST images have. *)
Definition transform (p : Z) : R := normalize (1 / 2) (1 / 2) (to_tensor p).

End Transform.

(** * Properties *)

(** ** Boolean-mask indexing *)

Module MaskFacts.

Lemma logical_and_map {A} (f g : A -> bool) (l : list A) :
  np.logical_and (map f l) (map g l) = map (fun x => f x && g x) l.
Proof.
  unfold np.logical_and.
  induction l as [|x l IH]; simpl; [reflexivity|].
  f_equal. exact IH.
Qed.

Lemma count_nonzero_map {A} (f : A -> bool) (l : list A) :
  np.count_nonzero (map f l) = length (filter f l).
Proof.
  unfold np.count_nonzero.
  induction l as [|x l IH]; simpl; [reflexivity|].
  destruct (f x); simpl; now rewrite IH.
Qed.

Lemma filter_length_perm {A} (f : A -> bool) (l l' : list A) :
  Permutation l l' -> length (filter f l) = length (filter f l').
Proof.
  induction 1 as [|x l l' _ IH|x y l|l l' l'' _ IH1 _ IH2]; simpl.
  - reflexivity.
  - destruct (f x); simpl; now rewrite IH.
  - destruct (f x), (f y); reflexivity.
  - now rewrite IH1.
Qed.

Lemma count_nonzero_perm {A} (f : A -> bool) (l l' : list A) :
  Permutation l l' ->
  np.count_nonzero (map f l) = np.count_nonzero (map f l').
Proof.
  intros H. rewrite !count_nonzero_map. now apply filter_length_perm.
Qed.

Lemma compress_length {A} (mask : list bool) (rows : list A) :
  length mask = length rows ->
  length (np.compress mask rows) = np.count_nonzero mask.
Proof.
  unfold np.count_nonzero. revert rows.
  induction mask as [|b mask IH]; intros [|r rows] H; simpl in *;
    try discriminate; [reflexivity|].
  injection H as H. destruct b; simpl; now rewrite IH.
Qed.

Lemma compress_forallb {A} (p : A -> bool) (mask : list bool) (rows : list A) :
  forallb p rows = true -> forallb p (np.compress mask rows) = true.
Proof.
  revert rows.
  induction mask as [|b mask IH]; intros [|r rows] H; simpl in *;
    try reflexivity.
  apply andb_true_iff in H as [Hr Hrows].
  destruct b; simpl; [rewrite Hr; simpl|]; now apply IH.
Qed.

Lemma nonzero_from_shift {A} (d r : A) (rows : list A) (k : nat) :
  forall (mask : list bool) (j : nat), k < j ->
  map (fun i => nth (i - k) (r :: rows) d) (np.nonzero_from j mask)
  = map (fun i => nth (i - S k) rows d) (np.nonzero_from j mask).
Proof.
  induction mask as [|b mask IH]; intros j Hj; simpl; [reflexivity|].
  destruct b; simpl.
  - rewrite IH by lia. f_equal.
    replace (j - k) with (S (j - S k)) by lia. reflexivity.
  - apply IH. lia.
Qed.

(** The kept rows are the rows at the mask's true positions. *)
Lemma compress_nonzero_from {A} (d : A) (mask : list bool) :
  forall (rows : list A) (k : nat),
  length mask = length rows ->
  np.compress mask rows
  = map (fun i => nth (i - k) rows d) (np.nonzero_from k mask).
Proof.
  induction mask as [|b mask IH]; intros [|r rows] k H;
    cbn [np.compress np.nonzero_from length] in *;
    try discriminate; [reflexivity|].
  injection H as H.
  destruct b; cbn [map].
  - rewrite Nat.sub_diag. change (nth 0 (r :: rows) d) with r. f_equal.
    rewrite nonzero_from_shift by lia. now apply IH.
  - rewrite nonzero_from_shift by lia. now apply IH.
Qed.

Lemma compress_flatnonzero {A} (d : A) (mask : list bool) (rows : list A) :
  length mask = length rows ->
  np.compress mask rows = map (fun i => nth i rows d) (np.flatnonzero mask).
Proof.
  intros H. unfold np.flatnonzero.
  rewrite (compress_nonzero_from d mask rows 0 H).
  apply map_ext. intros i. now rewrite Nat.sub_0_r.
Qed.

Lemma nonzero_from_bounds (mask : list bool) :
  forall k i, In i (np.nonzero_from k mask) -> k <= i < k + length mask.
Proof.
  induction mask as [|b mask IH]; intros k i Hi; simpl in *; [tauto|].
  destruct b; simpl in Hi.
  - destruct Hi as [<-|Hi]; [lia|]. apply IH in Hi. lia.
  - apply IH in Hi. lia.
Qed.

(** The true positions come out in strictly increasing order. *)
Lemma nonzero_from_sorted (mask : list bool) :
  forall k, StronglySorted lt (np.nonzero_from k mask).
Proof.
  induction mask as [|b mask IH]; intros k; simpl; [constructor|].
  destruct b; [|apply IH].
  constructor; [apply IH|].
  apply Forall_forall. intros i Hi.
  apply nonzero_from_bounds in Hi. lia.
Qed.

Lemma flatnonzero_sorted (mask : list bool) :
  StronglySorted lt (np.flatnonzero mask).
Proof. apply nonzero_from_sorted. Qed.

Lemma In_nonzero_from (mask : list bool) :
  forall k i,
  In i (np.nonzero_from k mask) <-> k <= i /\ nth (i - k) mask false = true.
Proof.
  induction mask as [|b mask IH]; intros k i; cbn [np.nonzero_from].
  - simpl. split; [tauto|]. intros [_ H]. destruct (i - k); discriminate.
  - assert (E : In i (if b then k :: np.nonzero_from (S k) mask
                      else np.nonzero_from (S k) mask)
                <-> (b = true /\ i = k) \/ In i (np.nonzero_from (S k) mask)).
    { destruct b; simpl; split; intros H.
      - destruct H as [H|H]; [left; auto|right; exact H].
      - destruct H as [[_ H]|H]; [left; auto|right; exact H].
      - right; exact H.
      - destruct H as [[H _]|H]; [discriminate|exact H]. }
    rewrite E, IH. clear E IH.
    destruct (Nat.lt_trichotomy i k) as [Hlt|[->|Hgt]].
    + split; [intros [[_ ?]|[? _]]; lia|intros [? _]; lia].
    + rewrite Nat.sub_diag. simpl.
      split; [intros [[? _]|[? _]]; [auto|lia]|intros [_ ?]; left; auto].
    + replace (i - k) with (S (i - S k)) by lia. simpl.
      split; [intros [[_ ?]|[_ ?]]; [lia|split; [lia|auto]]
             |intros [_ ?]; right; split; [lia|auto]].
Qed.

(** A row position is taken exactly when the mask is true there. *)
Lemma In_flatnonzero (mask : list bool) (i : nat) :
  In i (np.flatnonzero mask) <-> DataSeparation.selects mask i = true.
Proof.
  unfold np.flatnonzero, DataSeparation.selects.
  rewrite In_nonzero_from, Nat.sub_0_r. split; [tauto|]. intros H; split; [lia|exact H].
Qed.

End MaskFacts.

(** ** Data separation *)

Module SeparationFacts.

Import DataSeparation.

Lemma arange_length (n : nat) : length (np.arange n) = n.
Proof. unfold np.arange. now rewrite length_map, length_seq. Qed.

Lemma train_mask_map (ri : list Z) :
  train_mask ri = map (fun x => x <? 600)%Z ri.
Proof. reflexivity. Qed.

Lemma crossVal_mask_map (ri : list Z) :
  crossVal_mask ri = map (fun x => (x >? 600)%Z && (x <=? 800)%Z) ri.
Proof. unfold crossVal_mask. apply MaskFacts.logical_and_map. Qed.

Lemma test_mask_map (ri : list Z) :
  test_mask ri = map (fun x => x >=? 800)%Z ri.
Proof. reflexivity. Qed.

Lemma train_mask_length (ri : list Z) : length (train_mask ri) = length ri.
Proof. rewrite train_mask_map. apply length_map. Qed.

Lemma crossVal_mask_length (ri : list Z) :
  length (crossVal_mask ri) = length ri.
Proof. rewrite crossVal_mask_map. apply length_map. Qed.

Lemma test_mask_length (ri : list Z) : length (test_mask ri) = length ri.
Proof. rewrite test_mask_map. apply length_map. Qed.

Lemma selects_map {A} (f : A -> bool) (d : A) (l : list A) (i : nat) :
  i < length l -> selects (map f l) i = f (nth i l d).
Proof.
  intros H. unfold selects.
  rewrite (nth_indep _ false (f d)) by now rewrite length_map.
  apply map_nth.
Qed.

Lemma getitem_mask_ok {T} (a : ndarray2 T) (mask : list bool) :
  length mask = shape0 a ->
  np.getitem_mask a mask
  = Ok {| shape1 := shape1 a; data := np.compress mask (data a) |}.
Proof.
  intros H. unfold np.getitem_mask. now rewrite H, Nat.eqb_refl.
Qed.

(** A boolean index of the right length selects by position. *)
Lemma getitem_mask_in_row_order {T} (a : ndarray2 T) (mask : list bool) :
  length mask = shape0 a ->
  lists_in_row_order a mask (np.getitem_mask a mask).
Proof.
  intros H. unfold lists_in_row_order. split; [|split].
  - rewrite getitem_mask_ok by exact H. unfold np.take_rows. f_equal.
    f_equal. now apply MaskFacts.compress_flatnonzero.
  - apply MaskFacts.flatnonzero_sorted.
  - intros i. apply MaskFacts.In_flatnonzero.
Qed.

(** The shape of a selection: as many rows as the mask has true
    positions, and the columns of the indexed array. *)
Lemma getitem_mask_shape {T} (a : ndarray2 T) (mask : list bool) :
  length mask = shape0 a -> wf a = true ->
  exists b, np.getitem_mask a mask = Ok b
            /\ shape b = (np.count_nonzero mask, shape1 a)
            /\ wf b = true.
Proof.
  intros H Hwf. eexists. split; [now apply getitem_mask_ok|]. split.
  - unfold shape, shape0. cbn [data shape1].
    now rewrite MaskFacts.compress_length.
  - unfold wf in *. cbn [data shape1]. now apply MaskFacts.compress_forallb.
Qed.

(** How many of the three sets hold a row, by the value that
    [row_indices] has at the row's position. *)
Lemma membership_count_by_value (ri : list Z) (i : nat) :
  i < length ri ->
  membership_count ri i
  = (if (nth i ri 0 =? 600)%Z then 0
     else if (nth i ri 0 =? 800)%Z then 2 else 1).
Proof.
  intros H. unfold membership_count.
  rewrite train_mask_map, crossVal_mask_map, test_mask_map.
  rewrite !(@selects_map Z _ 0%Z) by exact H.
  set (v := nth i ri 0%Z).
  destruct (Z.eqb_spec v 600) as [E6|N6]; [rewrite E6; reflexivity|].
  destruct (Z.eqb_spec v 800) as [E8|N8]; [rewrite E8; reflexivity|].
  rewrite Z.gtb_ltb, Z.geb_leb.
  destruct (Z.ltb_spec v 600), (Z.ltb_spec 600 v), (Z.leb_spec v 800),
    (Z.leb_spec 800 v); simpl; lia.
Qed.

(** Whatever the permutation, the row whose index is 600 is in no set and
    the row whose index is 800 is in two. *)
Lemma every_permutation_misplaces_two_rows (n : nat) (ri : list Z) :
  800 < n -> Permutation ri (np.arange n) ->
  exists i j, i < n /\ j < n
              /\ membership_count ri i = 0 /\ membership_count ri j = 2.
Proof.
  intros Hn Hp.
  assert (Hlen : length ri = n)
    by (rewrite (Permutation_length Hp); apply arange_length).
  assert (Hin : forall k, k < n -> In (Z.of_nat k) ri).
  { intros k Hk. apply (Permutation_in _ (Permutation_sym Hp)).
    unfold np.arange. apply in_map, in_seq. lia. }
  destruct (In_nth _ _ 0%Z (Hin 600 ltac:(lia))) as (i & Hi & Ei).
  destruct (In_nth _ _ 0%Z (Hin 800 ltac:(lia))) as (j & Hj & Ej).
  exists i, j. rewrite !membership_count_by_value by assumption.
  rewrite Ei, Ej. repeat split; lia.
Qed.

(** C6: for every permutation [row_indices] of [0 .. 999] and every
    1000 x 20 array [X_norm], the masks [row_indices < 600],
    [600 < row_indices <= 800] and [row_indices >= 800] are true at exactly
    600, 200 and 200 positions, and [X_train], [X_crossVal] and [X_test]
    have shapes (600, 20), (200, 20) and (200, 20), every row with all 20
    columns. *)
Theorem split_shapes {T} (X_norm : ndarray2 T) (row_indices : list Z) :
  shape X_norm = (1000, 20) ->
  wf X_norm = true ->
  Permutation row_indices (np.arange 1000) ->
  np.count_nonzero (train_mask row_indices) = 600
  /\ np.count_nonzero (crossVal_mask row_indices) = 200
  /\ np.count_nonzero (test_mask row_indices) = 200
  /\ exists A B C,
       X_train X_norm row_indices = Ok A
       /\ shape A = (600, 20) /\ wf A = true
       /\ X_crossVal X_norm row_indices = Ok B
       /\ shape B = (200, 20) /\ wf B = true
       /\ X_test X_norm row_indices = Ok C
       /\ shape C = (200, 20) /\ wf C = true.
Proof.
  intros Hshape Hwf Hp.
  injection Hshape as H0 H1.
  assert (Hlen : length row_indices = shape0 X_norm).
  { rewrite (Permutation_length Hp), arange_length. now symmetry. }
  assert (Ctrain : np.count_nonzero (train_mask row_indices) = 600).
  { rewrite train_mask_map, (MaskFacts.count_nonzero_perm _ Hp).
    vm_compute. reflexivity. }
  assert (Ccv : np.count_nonzero (crossVal_mask row_indices) = 200).
  { rewrite crossVal_mask_map, (MaskFacts.count_nonzero_perm _ Hp).
    vm_compute. reflexivity. }
  assert (Ctest : np.count_nonzero (test_mask row_indices) = 200).
  { rewrite test_mask_map, (MaskFacts.count_nonzero_perm _ Hp).
    vm_compute. reflexivity. }
  repeat split; try assumption.
  destruct (@getitem_mask_shape T X_norm (train_mask row_indices))
    as (A & EA & SA & WA);
    [now rewrite train_mask_length|exact Hwf|].
  destruct (@getitem_mask_shape T X_norm (crossVal_mask row_indices))
    as (B & EB & SB & WB);
    [now rewrite crossVal_mask_length|exact Hwf|].
  destruct (@getitem_mask_shape T X_norm (test_mask row_indices))
    as (C & EC & SC & WC);
    [now rewrite test_mask_length|exact Hwf|].
  exists A, B, C. unfold X_train, X_crossVal, X_test.
  rewrite Ctrain, H1 in SA. rewrite Ccv, H1 in SB. rewrite Ctest, H1 in SC.
  repeat split; assumption.
Qed.

(** C6 at the reversed identity permutation and an array of zeros. *)
Lemma split_shapes_witness :
  np.count_nonzero (train_mask (rev (np.arange 1000))) = 600
  /\ np.count_nonzero (crossVal_mask (rev (np.arange 1000))) = 200
  /\ np.count_nonzero (test_mask (rev (np.arange 1000))) = 200
  /\ exists A B C,
       X_train (mk_ndarray2 20 (repeat (repeat 0%Z 20) 1000))
         (rev (np.arange 1000)) = Ok A
       /\ shape A = (600, 20) /\ wf A = true
       /\ X_crossVal (mk_ndarray2 20 (repeat (repeat 0%Z 20) 1000))
            (rev (np.arange 1000)) = Ok B
       /\ shape B = (200, 20) /\ wf B = true
       /\ X_test (mk_ndarray2 20 (repeat (repeat 0%Z 20) 1000))
            (rev (np.arange 1000)) = Ok C
       /\ shape C = (200, 20) /\ wf C = true.
Proof.
  apply (@split_shapes Z (mk_ndarray2 20 (repeat (repeat 0%Z 20) 1000))
           (rev (np.arange 1000))).
  - vm_compute. reflexivity.
  - vm_compute. reflexivity.
  - apply Permutation_sym, Permutation_rev.
Defined.

(** C8: for every permutation [row_indices] of the row positions of
    [X_norm], each of [X_train], [X_crossVal] and [X_test] lists the rows
    its mask selects by increasing row position in [X_norm]: the
    permutation decides which rows a set holds, not their order. *)
Theorem selection_keeps_row_order {T} (X_norm : ndarray2 T)
  (row_indices : list Z) :
  Permutation row_indices (np.arange (shape0 X_norm)) ->
  lists_in_row_order X_norm (train_mask row_indices)
    (X_train X_norm row_indices)
  /\ lists_in_row_order X_norm (crossVal_mask row_indices)
       (X_crossVal X_norm row_indices)
  /\ lists_in_row_order X_norm (test_mask row_indices)
       (X_test X_norm row_indices).
Proof.
  intros Hp.
  assert (Hlen : length row_indices = shape0 X_norm)
    by now rewrite (Permutation_length Hp), arange_length.
  split; [|split]; apply getitem_mask_in_row_order.
  - now rewrite train_mask_length.
  - now rewrite crossVal_mask_length.
  - now rewrite test_mask_length.
Qed.

(** C8 at the reversed identity permutation of 1000 tagged rows. *)
Lemma selection_keeps_row_order_witness :
  lists_in_row_order (tagged_rows 1000) (train_mask (rev (np.arange 1000)))
    (X_train (tagged_rows 1000) (rev (np.arange 1000)))
  /\ lists_in_row_order (tagged_rows 1000)
       (crossVal_mask (rev (np.arange 1000)))
       (X_crossVal (tagged_rows 1000) (rev (np.arange 1000)))
  /\ lists_in_row_order (tagged_rows 1000) (test_mask (rev (np.arange 1000)))
       (X_test (tagged_rows 1000) (rev (np.arange 1000))).
Proof.
  apply (@selection_keeps_row_order Z (tagged_rows 1000) (rev (np.arange 1000))).
  replace (shape0 (tagged_rows 1000)) with 1000 by (vm_compute; reflexivity).
  apply Permutation_sym, Permutation_rev.
Defined.

(** C1 fails on the code: at the identity permutation of [0 .. 999], the
    row at position 600 is in none of [X_train], [X_crossVal] and [X_test],
    and the row at position 800 is in both [X_crossVal] and [X_test]. *)
Theorem split_is_not_a_partition :
  Permutation (np.arange 1000) (np.arange 1000)
  /\ membership_count (np.arange 1000) 600 = 0
  /\ membership_count (np.arange 1000) 800 = 2
  /\ exists A B C,
       X_train (tagged_rows 1000) (np.arange 1000) = Ok A
       /\ X_crossVal (tagged_rows 1000) (np.arange 1000) = Ok B
       /\ X_test (tagged_rows 1000) (np.arange 1000) = Ok C
       /\ occurrences [600%Z] A = 0
       /\ occurrences [600%Z] B = 0
       /\ occurrences [600%Z] C = 0
       /\ occurrences [800%Z] B = 1
       /\ occurrences [800%Z] C = 1.
Proof.
  split; [apply Permutation_refl|].
  split; [vm_compute; reflexivity|].
  split; [vm_compute; reflexivity|].
  eexists _, _, _.
  split; [vm_compute; reflexivity|].
  split; [vm_compute; reflexivity|].
  split; [vm_compute; reflexivity|].
  split; [vm_compute; reflexivity|].
  split; [vm_compute; reflexivity|].
  split; [vm_compute; reflexivity|].
  split; vm_compute; reflexivity.
Qed.

End SeparationFacts.

(** ** The training loop *)

Module TrainingFacts.

Import Training.

Section Loop.

Variables Model Batch Loss : Type.
Variable fzero : Loss.
Variable fadd : Loss -> Loss -> Loss.
Variable fdiv : Loss -> Z -> Loss.
Variable train_step : Model -> Batch -> Model * Loss.
Variable trainloader : nat -> list Batch.

#[local] Abbreviation body := (batch_body fzero fadd fdiv train_step).
#[local] Abbreviation epoch := (epoch_body fzero fadd fdiv train_step trainloader).
#[local] Abbreviation training := (train fzero fadd fdiv train_step trainloader).
#[local] Abbreviation exec := (run fzero fadd fdiv train_step trainloader).
#[local] Abbreviation state := (loop_state Model Loss).
#[local] Abbreviation on_schedule := (@on_schedule Model Loss).

(** *** The step counter and the trace *)

Lemma body_steps (e : nat) (s : state) (b : Batch) :
  steps (body e s b) = (steps s + 1)%Z.
Proof.
  unfold batch_body. destruct (train_step (model s) b) as [m' l].
  destruct (_ =? _)%Z; reflexivity.
Qed.

Lemma body_trace (e : nat) (s : state) (b : Batch) :
  exists o, trace (body e s b) = trace s ++ [o]
            /\ printed o = ((steps s + 1) mod print_every =? 0)%Z.
Proof.
  unfold batch_body. destruct (train_step (model s) b) as [m' l].
  destruct (_ =? _)%Z eqn:E; eexists; split; reflexivity.
Qed.

Lemma on_schedule_body (e : nat) (s : state) (b : Batch) :
  on_schedule s -> on_schedule (body e s b).
Proof.
  intros [Hs Ht]. destruct (body_trace e s b) as (o & Eo & Po).
  unfold on_schedule. rewrite body_steps, Eo, length_app. cbn [length].
  split; [lia|].
  rewrite Nat.add_1_r. unfold schedule in *.
  rewrite seq_S, !map_app, Ht. cbn [map Nat.add]. f_equal.
  rewrite Po, Hs. f_equal. f_equal. f_equal. f_equal. lia.
Qed.

Lemma on_schedule_batches (e : nat) (bs : list Batch) :
  forall s, on_schedule s -> on_schedule (fold_left (body e) bs s).
Proof.
  induction bs as [|b bs IH]; intros s H; simpl; [exact H|].
  apply IH. now apply on_schedule_body.
Qed.

Lemma on_schedule_epoch (s : state) (e : nat) :
  on_schedule s -> on_schedule (epoch s e).
Proof. intros H. unfold epoch_body. now apply on_schedule_batches. Qed.

Lemma on_schedule_epochs (es : list nat) :
  forall s, on_schedule s -> on_schedule (fold_left epoch es s).
Proof.
  induction es as [|e es IH]; intros s H; simpl; [exact H|].
  apply IH. now apply on_schedule_epoch.
Qed.

Lemma trace_length_batches (e : nat) (bs : list Batch) :
  forall s, length (trace (fold_left (body e) bs s))
            = length (trace s) + length bs.
Proof.
  induction bs as [|b bs IH]; intros s; simpl; [lia|].
  rewrite IH. destruct (body_trace e s b) as (o & Eo & _).
  rewrite Eo, length_app. simpl. lia.
Qed.

Lemma trace_length_epochs (es : list nat) :
  forall s, length (trace (fold_left epoch es s))
            = length (trace s) + length (concat (map trainloader es)).
Proof.
  induction es as [|e es IH]; intros s; simpl; [lia|].
  rewrite IH. unfold epoch_body.
  rewrite trace_length_batches, length_app. cbn [reset_running_loss trace].
  lia.
Qed.

Lemma schedule_nth (k n : nat) :
  k < n ->
  nth k (schedule n) false = (Z.of_nat (S k) mod print_every =? 0)%Z.
Proof.
  intros H. unfold schedule.
  set (f := fun k => (Z.of_nat (S k) mod print_every =? 0)%Z).
  rewrite (nth_indep _ false (f 0)) by now rewrite length_map, length_seq.
  rewrite map_nth, seq_nth by exact H. reflexivity.
Qed.

(** When lines are printed: the loop runs one
    iteration per batch, and iteration [k+1] prints a line exactly when
    [k+1] is a multiple of [print_every], counted across epochs. *)
Lemma print_schedule (m : Model) :
  let n := length (all_batches trainloader) in
  length (trace (training m)) = n
  /\ steps (training m) = Z.of_nat n
  /\ forall k, k < n ->
       (printed (nth k (trace (training m)) None) = true
        <-> (Z.of_nat (S k) mod print_every = 0)%Z).
Proof.
  intros n.
  assert (L : length (trace (training m)) = n).
  { unfold train. now rewrite trace_length_epochs. }
  assert (S : on_schedule (training m)).
  { unfold train. apply on_schedule_epochs. split; reflexivity. }
  destruct S as [Hs Ht]. rewrite L in Hs, Ht.
  split; [exact L|]. split; [exact Hs|].
  intros k Hk.
  assert (E : printed (nth k (trace (training m)) None)
              = nth k (schedule n) false).
  { rewrite <- Ht. symmetry.
    change false with (@printed Loss None) at 1. apply map_nth. }
  rewrite E, schedule_nth by exact Hk. apply Z.eqb_eq.
Qed.

(** *** Termination *)

Lemma exec_done (fuel : nat) (s : state) :
  exec fuel {| ctl := Done; st := s |} = Some s.
Proof. destruct fuel; reflexivity. Qed.

Lemma exec_batches (e : nat) (it : list Batch) :
  forall (s : state) (fuel : nat),
  exec (length it + fuel) {| ctl := NextBatch e it; st := s |}
  = exec fuel {| ctl := NextBatch e []; st := fold_left (body e) it s |}.
Proof.
  induction it as [|b it IH]; intros s fuel; [reflexivity|].
  cbn [length Nat.add]. cbn [run ctl step st]. apply IH.
Qed.

Lemma exec_epoch (e : nat) (s : state) (fuel : nat) :
  e < epochs ->
  exec (2 + length (trainloader e) + fuel) {| ctl := NextEpoch e; st := s |}
  = exec fuel {| ctl := NextEpoch (S e); st := epoch s e |}.
Proof.
  intros He. apply Nat.ltb_lt in He.
  replace (2 + length (trainloader e) + fuel)
    with (S (length (trainloader e) + S fuel)) by lia.
  cbn [run ctl step st]. rewrite He.
  rewrite exec_batches. reflexivity.
Qed.

Lemma exec_epochs (n : nat) :
  forall (e : nat) (s : state) (fuel : nat),
  e + n <= epochs ->
  exec (2 * n + length (concat (map trainloader (seq e n))) + fuel)
       {| ctl := NextEpoch e; st := s |}
  = exec fuel {| ctl := NextEpoch (e + n); st := fold_left epoch (seq e n) s |}.
Proof.
  induction n as [|n IH]; intros e s fuel H.
  - simpl. now rewrite Nat.add_0_r.
  - cbn [seq map concat fold_left]. rewrite length_app.
    replace (2 * S n + (length (trainloader e)
                        + length (concat (map trainloader (seq (S e) n)))) + fuel)
      with (2 + length (trainloader e)
            + (2 * n + length (concat (map trainloader (seq (S e) n))) + fuel))
      by lia.
    rewrite exec_epoch by lia. rewrite IH by lia.
    now replace (S e + n) with (e + S n) by lia.
Qed.

(** C5: for every finite sequence of batches per epoch, the nested loops
    terminate: run step by step from the start of the cell, the machine
    halts within [fuel_needed] steps (one per batch, two per epoch and one
    more), in the state the nested loops compute, after one iteration per
    batch. *)
Theorem training_loop_terminates (m : Model) (extra : nat) :
  exec (fuel_needed trainloader + extra) (start Batch fzero m)
  = Some (training m)
  /\ steps (training m) = Z.of_nat (length (all_batches trainloader)).
Proof.
  split; [|apply (print_schedule m)].
  unfold fuel_needed, start, all_batches, train.
  replace (1 + 2 * epochs + length (concat (map trainloader (seq 0 epochs)))
           + extra)
    with (2 * epochs + length (concat (map trainloader (seq 0 epochs)))
          + S extra) by lia.
  rewrite exec_epochs by lia.
  cbn [Nat.add run ctl step st]. rewrite Nat.ltb_irrefl.
  apply exec_done.
Qed.

(** *** What every printed line shows *)

#[local] Abbreviation all := (all_batches trainloader).
#[local] Abbreviation losses := (fun m => step_losses train_step m all).
#[local] Abbreviation acc := (accumulate fzero fadd).
#[local] Abbreviation estart := (epoch_start trainloader).

Lemma accumulate_snoc (l : list Loss) (x : Loss) :
  acc (l ++ [x]) = fadd (acc l) x.
Proof. unfold accumulate. now rewrite fold_left_app. Qed.

Lemma firstn_snoc {A} (l : list A) :
  forall n x, nth_error l n = Some x -> firstn (S n) l = firstn n l ++ [x].
Proof.
  induction l as [|y l IH]; intros [|n] x H; simpl in *; try discriminate.
  - now injection H as ->.
  - f_equal. now apply IH.
Qed.

Lemma window_snoc (ls : list Loss) (a t : nat) (x : Loss) :
  a <= t -> nth_error ls t = Some x ->
  window ls a (S t) = window ls a t ++ [x].
Proof.
  intros Hat H. unfold window.
  replace (S t - a) with (S (t - a)) by lia.
  apply firstn_snoc. rewrite nth_error_skipn.
  now replace (a + (t - a)) with t by lia.
Qed.

Lemma window_empty (ls : list Loss) (t : nat) : window ls t t = [].
Proof. unfold window. now rewrite Nat.sub_diag. Qed.

(** The loss of step [t+1] and the network after it. *)
Lemma step_at (bs : list Batch) :
  forall (m : Model) (t : nat) (b : Batch),
  nth_error bs t = Some b ->
  nth_error (step_losses train_step m bs) t
  = Some (snd (train_step (model_after train_step m (firstn t bs)) b))
  /\ model_after train_step m (firstn (S t) bs)
     = fst (train_step (model_after train_step m (firstn t bs)) b).
Proof.
  induction bs as [|b0 bs IH]; intros m [|t] b H; simpl in H; try discriminate.
  - injection H as ->. cbn [step_losses firstn model_after fold_left].
    destruct (train_step m b) as [m' l]. split; reflexivity.
  - cbn [step_losses]. destruct (train_step m b0) as [m' l] eqn:E.
    cbn [nth_error].
    destruct (IH m' t b H) as [H1 H2].
    change (firstn (S t) (b0 :: bs)) with (b0 :: firstn t bs).
    change (firstn (S (S t)) (b0 :: bs)) with (b0 :: firstn (S t) bs).
    unfold model_after in *. cbn [fold_left]. rewrite E. cbn [fst].
    split; assumption.
Qed.

Lemma epoch_start_succ (e : nat) :
  estart (S e) = estart e + length (trainloader e).
Proof.
  unfold epoch_start. now rewrite seq_S, map_app, concat_app, length_app;
    cbn [map concat Nat.add]; rewrite app_nil_r.
Qed.

Lemma epoch_start_mono (e e' : nat) : e <= e' -> estart e <= estart e'.
Proof.
  induction 1 as [|e' _ IH]; [lia|]. rewrite epoch_start_succ. lia.
Qed.

Lemma epoch_unique (e e' k : nat) :
  estart e <= k < estart (S e) -> estart e' <= k < estart (S e') -> e' = e.
Proof.
  intros H H'.
  destruct (Nat.lt_trichotomy e e') as [Hlt|[->|Hgt]]; [|reflexivity|].
  - pose proof (@epoch_start_mono (S e) e' ltac:(lia)). lia.
  - pose proof (@epoch_start_mono (S e') e ltac:(lia)). lia.
Qed.

(** The batches of epoch [e] lie at positions [estart e ..] of the run. *)
Lemma all_batches_at (e i : nat) :
  e < epochs -> i < length (trainloader e) ->
  nth_error all (estart e + i) = nth_error (trainloader e) i.
Proof.
  intros He Hi. unfold all_batches, epoch_start.
  replace epochs with (e + S (epochs - S e)) by lia.
  rewrite seq_app, map_app, concat_app. cbn [seq map concat Nat.add].
  rewrite nth_error_app2 by lia.
  replace (length (concat (map trainloader (seq 0 e))) + i
           - length (concat (map trainloader (seq 0 e)))) with i by lia.
  now rewrite nth_error_app1.
Qed.

Lemma all_batches_length : length all = estart epochs.
Proof. reflexivity. Qed.

Lemma logged_reset (m : Model) (t : nat) (s : state) :
  logged fzero fadd fdiv train_step trainloader m t s ->
  logged fzero fadd fdiv train_step trainloader m t (reset_running_loss fzero s).
Proof. intros H. exact H. Qed.

Lemma accumulating_reset (m : Model) (e : nat) (s : state) :
  accumulating fzero fadd train_step trainloader m e (estart e)
    (reset_running_loss fzero s).
Proof.
  exists (estart e). split; [lia|]. split; [now left|]. split; [intros u Hu; lia|].
  cbn [reset_running_loss running_loss]. now rewrite window_empty.
Qed.

(** One iteration keeps the account of the trace and of [running_loss]. *)
Lemma body_tracks (m : Model) (e t : nat) (s : state) (b : Batch) :
  estart e <= t < estart (S e) ->
  nth_error all t = Some b ->
  logged fzero fadd fdiv train_step trainloader m t s ->
  accumulating fzero fadd train_step trainloader m e t s ->
  logged fzero fadd fdiv train_step trainloader m (S t) (body e s b)
  /\ accumulating fzero fadd train_step trainloader m e (S t) (body e s b).
Proof.
  intros He Hb (Hsteps & Hlen & Hmodel & Htrace) (a & Ha & Hstart & Hgap & Hrl).
  destruct (step_at all m t Hb) as [Hloss Hnext].
  rewrite <- Hmodel in Hloss, Hnext.
  unfold batch_body. destruct (train_step (model s) b) as [m' l] eqn:E.
  cbn [fst snd] in Hloss, Hnext.
  assert (Hacc : fadd (running_loss s) l = acc (window (losses m) a (S t))).
  { rewrite (window_snoc _ (proj2 Ha) Hloss), accumulate_snoc. now rewrite Hrl. }
  rewrite Hsteps.
  replace (Z.of_nat t + 1)%Z with (Z.of_nat (S t)) by lia.
  destruct (Z.of_nat (S t) mod print_every =? 0)%Z eqn:P.
  - (* a line is printed *)
    apply Z.eqb_eq in P.
    assert (Ea : Nat.max (estart e) (S t - period) = a).
    { unfold period, print_every in *.
      assert (forall u, a < u <= t -> (Z.of_nat u mod 40 <> 0)%Z) as Hgap' by exact Hgap.
      assert (Hlow : S t - Z.to_nat 40 <= a).
      { destruct (Nat.le_gt_cases (S t - Z.to_nat 40) a) as [Hle|Hgt]; [exact Hle|].
        exfalso. apply (Hgap' (S t - Z.to_nat 40)); [lia|].
        zify. Z.to_euclidean_division_equations. lia. }
      destruct Hstart as [->|Hmul]; [lia|].
      assert (a <= S t - Z.to_nat 40)
        by (zify; Z.to_euclidean_division_equations; lia).
      lia. }
    split.
    + split; [reflexivity|]. cbn [trace model]. split; [rewrite length_app; simpl; lia|].
      split; [now rewrite Hnext|].
      intros k e' Hk He'.
      destruct (Nat.eq_dec k t) as [->|Hne].
      * rewrite app_nth2, Hlen, Nat.sub_diag by lia. cbn [nth].
        rewrite (@epoch_unique e e' t He He').
        unfold entry_at. apply Z.eqb_eq in P. rewrite P.
        unfold line_at. rewrite Ea, Hacc. reflexivity.
      * rewrite app_nth1 by lia. apply Htrace; [lia|exact He'].
    + exists (S t). split; [lia|]. split; [now right|].
      split; [intros u Hu; lia|].
      cbn [running_loss]. now rewrite window_empty.
  - (* no line *)
    apply Z.eqb_neq in P.
    split.
    + split; [reflexivity|]. cbn [trace model]. split; [rewrite length_app; simpl; lia|].
      split; [now rewrite Hnext|].
      intros k e' Hk He'.
      destruct (Nat.eq_dec k t) as [->|Hne].
      * rewrite app_nth2, Hlen, Nat.sub_diag by lia. cbn [nth].
        unfold entry_at. apply Z.eqb_neq in P. now rewrite P.
      * rewrite app_nth1 by lia. apply Htrace; [lia|exact He'].
    + exists a. split; [lia|]. split; [exact Hstart|]. split.
      * intros u Hu. destruct (Nat.eq_dec u (S t)) as [->|Hne]; [exact P|].
        apply Hgap. lia.
      * cbn [running_loss]. exact Hacc.
Qed.

Lemma batches_track (m : Model) (e : nat) (bs : list Batch) :
  forall (t : nat) (s : state),
  estart e <= t -> t + length bs <= estart (S e) ->
  (forall i, i < length bs -> nth_error all (t + i) = nth_error bs i) ->
  logged fzero fadd fdiv train_step trainloader m t s ->
  accumulating fzero fadd train_step trainloader m e t s ->
  logged fzero fadd fdiv train_step trainloader m (t + length bs)
    (fold_left (body e) bs s).
Proof.
  induction bs as [|b bs IH]; intros t s Ht Hend Hat Hlog Hacc.
  - cbn [length fold_left]. now rewrite Nat.add_0_r.
  - cbn [length fold_left] in *.
    assert (Hb : nth_error all t = Some b).
    { specialize (Hat 0 ltac:(lia)). now rewrite Nat.add_0_r in Hat. }
    destruct (@body_tracks m e t s b ltac:(lia) Hb Hlog Hacc) as [Hlog' Hacc'].
    replace (t + S (length bs)) with (S t + length bs) by lia.
    apply IH; try assumption; try lia.
    intros i Hi. specialize (Hat (S i) ltac:(lia)).
    now replace (t + S i) with (S t + i) in Hat by lia.
Qed.

Lemma epoch_tracks (m : Model) (e : nat) (s : state) :
  e < epochs ->
  logged fzero fadd fdiv train_step trainloader m (estart e) s ->
  logged fzero fadd fdiv train_step trainloader m (estart (S e)) (epoch s e).
Proof.
  intros He Hlog. unfold epoch_body. rewrite epoch_start_succ.
  apply batches_track with (e := e).
  - lia.
  - rewrite epoch_start_succ. lia.
  - intros i Hi. now apply all_batches_at.
  - now apply logged_reset.
  - apply accumulating_reset.
Qed.

Lemma epochs_track (m : Model) (n : nat) :
  forall (e : nat) (s : state),
  e + n <= epochs ->
  logged fzero fadd fdiv train_step trainloader m (estart e) s ->
  logged fzero fadd fdiv train_step trainloader m (estart (e + n))
    (fold_left epoch (seq e n) s).
Proof.
  induction n as [|n IH]; intros e s H Hlog.
  - cbn [seq fold_left]. now rewrite Nat.add_0_r.
  - cbn [seq fold_left]. replace (e + S n) with (S e + n) by lia.
    apply IH; [lia|]. apply epoch_tracks; [lia|exact Hlog].
Qed.

(** Every entry of the trace, for every network, loss arithmetic and
    batch lists: iteration [k+1], in epoch [e], prints a line exactly when
    [k+1] is a multiple of [print_every], and the line shows the losses
    accumulated since the line before or since the head of epoch [e],
    whichever came later, over [print_every]. *)
Lemma printed_lines (m : Model) (e k : nat) :
  estart e <= k < estart (S e) -> k < length all ->
  nth k (trace (training m)) None
  = entry_at fzero fadd fdiv train_step trainloader m e k.
Proof.
  intros He Hk.
  assert (Hlog : logged fzero fadd fdiv train_step trainloader m (estart epochs)
                   (training m)).
  { unfold train. apply (@epochs_track m epochs 0); [lia|].
    split; [reflexivity|]. split; [reflexivity|]. split; [reflexivity|].
    intros k' e' Hk'. unfold epoch_start in Hk'. simpl in Hk'. lia. }
  destruct Hlog as (_ & _ & _ & Htrace).
  apply Htrace; [|exact He]. now rewrite <- all_batches_length.
Qed.

(** Where no epoch begins between two lines, the printed line shows the
    losses of all the steps since the line before. *)
Lemma line_within_epoch (m : Model) (e t : nat) :
  estart e <= t - period ->
  line_at fzero fadd fdiv train_step trainloader m e t
  = claimed_line_at fzero fadd fdiv train_step trainloader m e t.
Proof.
  intros H. unfold line_at, claimed_line_at. now rewrite Nat.max_r.
Qed.

End Loop.

(** C3 fails on the code.  With 938 batches in each of the 3 epochs and a
    loss of 1 in every step, the loop takes 2814 steps and prints 70
    lines.  The line of step 920 shows 1; no line follows until step 960,
    whose line is the first of epoch 2 and shows 22/40 = 11/20, because
    [running_loss] was set to 0 again after step 938; the 40 losses since
    the line of step 920, over 40, would give 1. *)
Theorem epoch_reset_breaks_the_average :
  length (all_batches unit_loader) = 2814
  /\ length (stdout unit_run) = 70
  /\ nth 919 (trace unit_run) None
     = Some {| epoch_no := 1; epoch_of := 3; loss_value := 1%Q |}
  /\ firstn 39 (skipn 920 (trace unit_run)) = repeat None 39
  /\ nth 959 (trace unit_run) None
     = Some {| epoch_no := 2; epoch_of := 3; loss_value := (11 # 20)%Q |}
  /\ claimed_line_at 0%Q q_add q_div q_step unit_loader tt 1 960
     = {| epoch_no := 2; epoch_of := 3; loss_value := 1%Q |}.
Proof.
  split; [vm_compute; reflexivity|].
  split; [vm_compute; reflexivity|].
  split; [vm_compute; reflexivity|].
  split; [vm_compute; reflexivity|].
  split; vm_compute; reflexivity.
Qed.

End TrainingFacts.

(** ** Mean normalization *)

Module NormalizationFacts.

Import MeanNormalization.

#[local] Open Scope R_scope.

Lemma sqr_nonneg (a : R) : 0 <= a * a.
Proof. apply (Rle_0_sqr a). Qed.

Lemma sqr_pos (a : R) : a <> 0 -> 0 < a * a.
Proof. apply (Rsqr_pos_lt a). Qed.

(** *** Sums and means *)

Lemma sum_app (l l' : list R) : np.sum (l ++ l') = np.sum l + np.sum l'.
Proof.
  unfold np.sum. induction l as [|x l IH]; simpl; [lra|]. rewrite IH. lra.
Qed.

Lemma sum_map_affine (a b : R) (l : list R) :
  np.sum (map (fun x => a * x + b) l) = a * np.sum l + b * INR (length l).
Proof.
  unfold np.sum. induction l as [|x l IH]; [simpl; lra|].
  cbn [map fold_right length]. rewrite IH, S_INR. lra.
Qed.

Lemma sum_map_scale {A} (c : R) (f : A -> R) (l : list A) :
  np.sum (map (fun x => c * f x) l) = c * np.sum (map f l).
Proof.
  unfold np.sum. induction l as [|x l IH]; simpl; [lra|]. rewrite IH. lra.
Qed.

Lemma sum_map_plus {A} (f g : A -> R) (l : list A) :
  np.sum (map (fun x => f x + g x) l) = np.sum (map f l) + np.sum (map g l).
Proof.
  unfold np.sum. induction l as [|x l IH]; simpl; [lra|]. rewrite IH. lra.
Qed.

Lemma sum_nonneg (l : list R) :
  (forall x, In x l -> 0 <= x) -> 0 <= np.sum l.
Proof.
  unfold np.sum. induction l as [|x l IH]; intros H; simpl; [lra|].
  assert (0 <= x) by (apply H; now left).
  assert (0 <= fold_right Rplus 0 l) by (apply IH; intros y Hy; apply H; now right).
  lra.
Qed.

Lemma sum_pos (l : list R) (x : R) :
  (forall y, In y l -> 0 <= y) -> In x l -> 0 < x -> 0 < np.sum l.
Proof.
  induction l as [|y l IH]; intros H Hin Hx; [destruct Hin|].
  change (np.sum (y :: l)) with (y + np.sum l).
  assert (0 <= y) by (apply H; now left).
  assert (0 <= np.sum l) by (apply sum_nonneg; intros z Hz; apply H; now right).
  destruct Hin as [->|Hin]; [lra|].
  assert (0 < np.sum l) by (apply IH; auto; intros z Hz; apply H; now right).
  lra.
Qed.

Lemma sum_all_zero (l : list R) :
  (forall x, In x l -> x = 0) -> np.sum l = 0.
Proof.
  unfold np.sum. induction l as [|x l IH]; intros H; simpl; [reflexivity|].
  rewrite (H x) by now left. rewrite IH; [lra|]. intros y Hy. apply H. now right.
Qed.

Lemma INR_length_pos {A} (l : list A) : l <> [] -> 0 < INR (length l).
Proof.
  destruct l as [|x l]; [congruence|]. intros _. apply lt_0_INR. simpl. lia.
Qed.

Lemma mean_nil : np.mean [] = 0.
Proof. unfold np.mean. simpl. unfold Rdiv. lra. Qed.

Lemma sum_of_mean (l : list R) : np.sum l = np.mean l * INR (length l).
Proof.
  destruct l as [|x l]; [rewrite mean_nil; simpl; lra|].
  unfold np.mean. field.
  apply Rgt_not_eq, INR_length_pos. discriminate.
Qed.

Lemma mean_nonneg (l : list R) :
  (forall x, In x l -> 0 <= x) -> 0 <= np.mean l.
Proof.
  intros H. destruct l as [|x l]; [rewrite mean_nil; lra|].
  unfold np.mean. apply Rmult_le_pos; [now apply sum_nonneg|].
  left. apply Rinv_0_lt_compat, INR_length_pos. discriminate.
Qed.

Lemma mean_const (c : R) (l : list R) :
  l <> [] -> (forall x, In x l -> x = c) -> np.mean l = c.
Proof.
  intros Hne H.
  assert (E : np.sum l = c * INR (length l)).
  { clear Hne. unfold np.sum. induction l as [|x l IH]; [simpl; lra|].
    cbn [fold_right length]. rewrite S_INR, IH by (intros y Hy; apply H; now right).
    rewrite (H x) by now left. lra. }
  unfold np.mean. rewrite E. field.
  apply Rgt_not_eq, INR_length_pos, Hne.
Qed.

Lemma mean_map_scale {A} (c : R) (f : A -> R) (l : list A) :
  np.mean (map (fun x => c * f x) l) = c * np.mean (map f l).
Proof.
  unfold np.mean. rewrite sum_map_scale, !length_map. unfold Rdiv. ring.
Qed.

(** *** Variance and standard deviation *)

Lemma var_nonneg (l : list R) : 0 <= np.var l.
Proof.
  unfold np.var. apply mean_nonneg. intros y Hy.
  apply in_map_iff in Hy as (x & <- & _). apply sqr_nonneg.
Qed.

Lemma std_sqr (l : list R) : np.std l * np.std l = np.var l.
Proof. unfold np.std. apply sqrt_sqrt, var_nonneg. Qed.

Lemma std_nonzero_var_pos (l : list R) : np.std l <> 0 <-> 0 < np.var l.
Proof.
  unfold np.std. split; intros H.
  - destruct (var_nonneg l) as [Hp|Hz]; [exact Hp|].
    exfalso. apply H. rewrite <- Hz. apply sqrt_0.
  - apply Rgt_not_eq. now apply sqrt_lt_R0.
Qed.

Lemma var_nil : np.var [] = 0.
Proof. unfold np.var. simpl. apply mean_nil. Qed.

Lemma std_nonzero_nonempty (l : list R) : np.std l <> 0 -> l <> [].
Proof.
  intros H ->. apply std_nonzero_var_pos in H. rewrite var_nil in H. lra.
Qed.

Lemma all_equal_or_not (x : R) (l : list R) :
  (forall y, In y l -> y = x) \/ (exists y, In y l /\ y <> x).
Proof.
  induction l as [|z l [IH|(y & Hy & Ny)]].
  - left. intros y [].
  - destruct (Req_dec_T z x) as [->|Hz].
    + left. intros y [<-|Hy]; [reflexivity|now apply IH].
    + right. exists z. split; [now left|exact Hz].
  - right. exists y. split; [now right|exact Ny].
Qed.

(** The population standard deviation of a column is not zero exactly
    when the column holds two distinct values. *)
Lemma std_nonzero_iff (l : list R) :
  np.std l <> 0 <-> exists x y, In x l /\ In y l /\ x <> y.
Proof.
  rewrite std_nonzero_var_pos. split.
  - intros Hv.
    destruct l as [|x0 l0]; [rewrite var_nil in Hv; lra|].
    set (l := x0 :: l0) in *.
    destruct (all_equal_or_not x0 l) as [Hall|(y & Hy & Ny)].
    + exfalso.
      assert (Em : np.mean l = x0) by (apply mean_const; [discriminate|exact Hall]).
      assert (Ez : np.var l = 0).
      { unfold np.var. apply mean_const.
        - discriminate.
        - intros z Hz. apply in_map_iff in Hz as (x & <- & Hx).
          rewrite Em, (Hall x Hx). lra. }
      lra.
    + exists y, x0. repeat split; [exact Hy|now left|exact Ny].
  - intros (x & y & Hx & Hy & Nxy).
    assert (Hne : l <> []) by (intros ->; destruct Hx).
    unfold np.var, np.mean at 1. rewrite length_map.
    apply Rmult_lt_0_compat;
      [|apply Rinv_0_lt_compat, INR_length_pos, Hne].
    assert (Hsq : forall z, In z (map (fun x => (x - np.mean l) * (x - np.mean l)) l)
                        -> 0 <= z).
    { intros z Hz. apply in_map_iff in Hz as (w & <- & _). apply sqr_nonneg. }
    destruct (Req_dec_T x (np.mean l)) as [Ex|Nx].
    + apply sum_pos with (x := (y - np.mean l) * (y - np.mean l)); [exact Hsq| |].
      * apply in_map_iff. now exists y.
      * apply sqr_pos. rewrite <- Ex. lra.
    + apply sum_pos with (x := (x - np.mean l) * (x - np.mean l)); [exact Hsq| |].
      * apply in_map_iff. now exists x.
      * apply sqr_pos. lra.
Qed.

(** *** A normalized column *)

Lemma sum_normalized (s : R) (l : list R) :
  s <> 0 -> np.sum (map (fun x => (x - np.mean l) / s) l) = 0.
Proof.
  intros Hs.
  rewrite (map_ext _ (fun x => / s * x + - np.mean l / s))
    by (intros x; field; exact Hs).
  rewrite sum_map_affine, (sum_of_mean l). field. exact Hs.
Qed.

Lemma mean_normalized (s : R) (l : list R) :
  s <> 0 -> np.mean (map (fun x => (x - np.mean l) / s) l) = 0.
Proof.
  intros Hs. unfold np.mean at 1. rewrite sum_normalized by exact Hs.
  unfold Rdiv. lra.
Qed.

Lemma var_normalized (l : list R) :
  np.std l <> 0 ->
  np.var (map (fun x => (x - np.mean l) / np.std l) l) = 1.
Proof.
  intros Hs. unfold np.var at 1.
  rewrite mean_normalized by exact Hs. rewrite map_map.
  rewrite (map_ext _ (fun x => / np.var l * ((x - np.mean l) * (x - np.mean l)))).
  - rewrite mean_map_scale. fold (np.var l).
    apply Rinv_l, Rgt_not_eq, std_nonzero_var_pos, Hs.
  - intros x. rewrite <- std_sqr. field. exact Hs.
Qed.

Lemma std_normalized (l : list R) :
  np.std l <> 0 ->
  np.std (map (fun x => (x - np.mean l) / np.std l) l) = 1.
Proof.
  intros Hs. unfold np.std at 1. rewrite var_normalized by exact Hs.
  apply sqrt_1.
Qed.

(** *** Broadcasting *)

Lemma wf_rows {T} (a : ndarray2 T) (row : list T) :
  wf a = true -> In row (data a) -> length row = shape1 a.
Proof.
  unfold wf. rewrite forallb_forall. intros H Hin.
  apply Nat.eqb_eq, H, Hin.
Qed.

Lemma zip_with_length {A B C} (op : A -> B -> C) (u : list A) (v : list B) :
  length (np.zip_with op u v) = Nat.min (length u) (length v).
Proof. unfold np.zip_with. now rewrite length_map, length_combine. Qed.

Lemma zip_with_nth {A B C} (op : A -> B -> C) (dc : C) (da : A) (db : B) :
  forall (u : list A) (v : list B) (j : nat),
  (j < length u)%nat -> (j < length v)%nat ->
  nth j (np.zip_with op u v) dc = op (nth j u da) (nth j v db).
Proof.
  unfold np.zip_with.
  induction u as [|x u IH]; intros [|y v] [|j] Hu Hv; simpl in *;
    try lia; [reflexivity|].
  apply IH; lia.
Qed.

Lemma mean_axis0_length (a : ndarray2 R) :
  length (np.mean_axis0 a) = shape1 a.
Proof. unfold np.mean_axis0. now rewrite length_map, length_seq. Qed.

Lemma std_axis0_length (a : ndarray2 R) :
  length (np.std_axis0 a) = shape1 a.
Proof. unfold np.std_axis0. now rewrite length_map, length_seq. Qed.

Lemma mean_axis0_nth (a : ndarray2 R) (j : nat) :
  (j < shape1 a)%nat -> nth j (np.mean_axis0 a) 0 = np.mean (column 0 a j).
Proof.
  intros H. unfold np.mean_axis0.
  set (f := fun j => np.mean (column 0 a j)).
  rewrite (nth_indep _ 0 (f O)) by now rewrite length_map, length_seq.
  rewrite map_nth, seq_nth by exact H. reflexivity.
Qed.

Lemma std_axis0_nth (a : ndarray2 R) (j : nat) :
  (j < shape1 a)%nat -> nth j (np.std_axis0 a) 0 = np.std (column 0 a j).
Proof.
  intros H. unfold np.std_axis0.
  set (f := fun j => np.std (column 0 a j)).
  rewrite (nth_indep _ 0 (f O)) by now rewrite length_map, length_seq.
  rewrite map_nth, seq_nth by exact H. reflexivity.
Qed.

(** A vector as long as the rows is applied along every row. *)
Lemma broadcast_rows {A B C} (op : A -> B -> C) (a : ndarray2 A) (v : list B) :
  length v = shape1 a ->
  np.broadcast op a v
  = Ok {| shape1 := shape1 a;
          data := map (fun row => np.zip_with op row v) (data a) |}.
Proof. intros H. unfold np.broadcast. now rewrite H, Nat.eqb_refl. Qed.

(** The normalization line raises nothing, whatever the array holds: its
    two vectors have one entry per column by construction, and the
    division is not guarded. *)
Lemma X_norm_ok (X : ndarray2 R) : X_norm X = Ok (normalized X).
Proof.
  unfold X_norm, np.subtract, np.divide, ave_cols, std_cols.
  rewrite broadcast_rows by apply mean_axis0_length.
  cbn [bind]. rewrite broadcast_rows by (cbn [shape1]; apply std_axis0_length).
  cbn [shape1 data]. unfold normalized. now rewrite map_map.
Qed.

Lemma normalized_shape (X : ndarray2 R) : shape (normalized X) = shape X.
Proof.
  unfold shape, shape0, normalized. cbn [data shape1]. now rewrite length_map.
Qed.

Lemma normalized_wf (X : ndarray2 R) : wf X = true -> wf (normalized X) = true.
Proof.
  intros H. unfold wf, normalized. cbn [data shape1].
  rewrite forallb_forall. intros row Hrow.
  apply in_map_iff in Hrow as (r & <- & Hr).
  rewrite !zip_with_length. unfold ave_cols, std_cols.
  rewrite mean_axis0_length, std_axis0_length, (wf_rows X r H Hr).
  apply Nat.eqb_eq. lia.
Qed.

Lemma normalized_row_nth (X : ndarray2 R) (row : list R) (j : nat) :
  length row = shape1 X -> (j < shape1 X)%nat ->
  nth j (np.zip_with Rdiv (np.zip_with Rminus row (ave_cols X)) (std_cols X)) 0
  = (nth j row 0 - np.mean (column 0 X j)) / np.std (column 0 X j).
Proof.
  intros Hrow Hj. unfold ave_cols, std_cols.
  rewrite (zip_with_nth Rdiv 0 0 0);
    [|rewrite zip_with_length, mean_axis0_length; lia
     |rewrite std_axis0_length; lia].
  rewrite (zip_with_nth Rminus 0 0 0);
    [|lia|rewrite mean_axis0_length; lia].
  now rewrite mean_axis0_nth, std_axis0_nth.
Qed.


(** Column by column, [X_norm] is the normalized column of [X]. *)
Lemma normalized_column (X : ndarray2 R) (j : nat) :
  wf X = true -> (j < shape1 X)%nat ->
  column 0 (normalized X) j
  = map (fun x => (x - np.mean (column 0 X j)) / np.std (column 0 X j))
        (column 0 X j).
Proof.
  intros Hwf Hj. unfold column at 1 4, normalized. cbn [data].
  rewrite !map_map. apply map_ext_in. intros row Hrow.
  apply normalized_row_nth; [|exact Hj]. now apply wf_rows.
Qed.







(** *** The guarded division *)

Lemma checked_div_nonzero (x y : R) :
  y <> 0 -> np.checked_div x y = Ok (x / y).
Proof.
  intros H. unfold np.checked_div. destruct (Req_dec_T y 0); [contradiction|reflexivity].
Qed.

Lemma checked_div_zero (x : R) : np.checked_div x 0 = Raise ZeroDivisionError.
Proof.
  unfold np.checked_div. destruct (Req_dec_T 0 0); [reflexivity|contradiction].
Qed.

Lemma checked_div_cases (x y : R) :
  np.checked_div x y = Ok (x / y)
  \/ np.checked_div x y = Raise ZeroDivisionError.
Proof. unfold np.checked_div. destruct (Req_dec_T y 0); auto. Qed.

Lemma sequence_all_ok {A B} (f : A -> result B) (g : A -> B) (l : list A) :
  (forall x, In x l -> f x = Ok (g x)) ->
  np.sequence (map f l) = Ok (map g l).
Proof.
  induction l as [|x l IH]; intros H; [reflexivity|].
  cbn [map np.sequence]. rewrite (H x) by now left.
  cbn [bind]. rewrite IH by (intros y Hy; apply H; now right).
  reflexivity.
Qed.

Lemma sequence_raises {A} (e : exn) (l : list (result A)) :
  (forall r, In r l -> (exists x, r = Ok x) \/ r = Raise e) ->
  In (Raise e) l ->
  np.sequence l = Raise e.
Proof.
  induction l as [|r l IH]; intros Hall Hin; [destruct Hin|].
  cbn [np.sequence].
  destruct (Hall r (or_introl eq_refl)) as [[x ->]| ->]; [|reflexivity].
  cbn [bind]. destruct Hin as [Hin|Hin]; [discriminate|].
  rewrite IH; [reflexivity| |exact Hin].
  intros r' Hr'. apply Hall. now right.
Qed.

Lemma zip_checked_div_ok (v : list R) :
  (forall y, In y v -> y <> 0) ->
  forall row,
  np.sequence (np.zip_with np.checked_div row v) = Ok (np.zip_with Rdiv row v).
Proof.
  intros Hv row. unfold np.zip_with.
  apply (sequence_all_ok (fun xy => np.checked_div (fst xy) (snd xy))
           (fun xy => fst xy / snd xy)).
  intros [x y] Hxy. apply checked_div_nonzero, Hv.
  eapply in_combine_r, Hxy.
Qed.

Lemma std_cols_nonzero (X : ndarray2 R) :
  (forall j, (j < shape1 X)%nat -> np.std (column 0 X j) <> 0) ->
  forall y, In y (std_cols X) -> y <> 0.
Proof.
  intros H y Hy. unfold std_cols, np.std_axis0 in Hy.
  apply in_map_iff in Hy as (j & <- & Hj). apply in_seq in Hj.
  apply H. lia.
Qed.

Lemma X_norm_checked_ok (X : ndarray2 R) :
  (forall j, (j < shape1 X)%nat -> np.std (column 0 X j) <> 0) ->
  X_norm_checked X = Ok (normalized X).
Proof.
  intros H.
  unfold X_norm_checked, np.subtract, np.divide_checked.
  rewrite broadcast_rows by apply mean_axis0_length.
  cbn [bind]. rewrite broadcast_rows by (cbn [shape1]; apply std_axis0_length).
  cbn [bind shape1 data]. rewrite !map_map.
  rewrite (sequence_all_ok _
             (fun row => np.zip_with Rdiv
                           (np.zip_with Rminus row (ave_cols X)) (std_cols X))).
  - reflexivity.
  - intros row _. apply zip_checked_div_ok, std_cols_nonzero, H.
Qed.

(** The guard is not idle: on an array with a row and a column of zero
    standard deviation, the guarded line raises. *)
Lemma X_norm_checked_raises (X : ndarray2 R) (j : nat) :
  wf X = true -> data X <> [] -> (j < shape1 X)%nat ->
  np.std (column 0 X j) = 0 ->
  X_norm_checked X = Raise ZeroDivisionError.
Proof.
  intros Hwf Hne Hj Hz.
  unfold X_norm_checked, np.subtract, np.divide_checked.
  rewrite broadcast_rows by apply mean_axis0_length.
  cbn [bind]. rewrite broadcast_rows by (cbn [shape1]; apply std_axis0_length).
  cbn [bind shape1 data]. rewrite !map_map.
  set (f := fun row => np.sequence
                (np.zip_with np.checked_div
                   (np.zip_with Rminus row (np.mean_axis0 X)) (np.std_axis0 X))).
  assert (Hrow : forall row, In row (data X) -> f row = Raise ZeroDivisionError).
  { intros row Hrow. unfold f. apply sequence_raises.
    - intros r Hr. unfold np.zip_with in Hr.
      apply in_map_iff in Hr as ([x y] & <- & _). cbn [fst snd].
      destruct (checked_div_cases x y) as [E|E]; rewrite E; eauto.
    - assert (Hlen : (j < length (np.zip_with Rminus row (np.mean_axis0 X)))%nat)
        by (rewrite zip_with_length, mean_axis0_length, (wf_rows X row Hwf Hrow); lia).
      assert (Hlen' : (j < length (np.std_axis0 X))%nat)
        by (rewrite std_axis0_length; exact Hj).
      assert (E : nth j (np.zip_with np.checked_div
                           (np.zip_with Rminus row (np.mean_axis0 X))
                           (np.std_axis0 X)) (Raise ZeroDivisionError)
                  = Raise ZeroDivisionError).
      { rewrite zip_with_nth with (da := 0) (db := 0) by assumption.
        rewrite std_axis0_nth by exact Hj. rewrite Hz.
        apply checked_div_zero. }
      rewrite <- E at 1. apply nth_In. rewrite zip_with_length. lia. }
  rewrite (sequence_raises (e := ZeroDivisionError)); [reflexivity| |].
  - intros r Hr. apply in_map_iff in Hr as (row & <- & Hin).
    right. now apply Hrow.
  - destruct (data X) as [|row rows]; [congruence|].
    cbn [map]. left. apply Hrow. now left.
Qed.

Lemma X_flat_raises : X_norm_checked X_flat = Raise ZeroDivisionError.
Proof.
  apply (@X_norm_checked_raises X_flat 0).
  - reflexivity.
  - discriminate.
  - unfold X_flat. cbn [shape1]. lia.
  - destruct (Req_dec_T (np.std (column 0 X_flat 0)) 0) as [E|N]; [exact E|].
    exfalso. apply std_nonzero_iff in N as (x & y & Hx & Hy & Nxy).
    unfold column, X_flat in Hx, Hy. simpl in Hx, Hy.
    destruct Hx as [<-|[<-|[]]], Hy as [<-|[<-|[]]]; now apply Nxy.
Qed.

Lemma X_small_std_nonzero (j : nat) :
  (j < shape1 X_small)%nat -> np.std (column 0 X_small j) <> 0.
Proof.
  intros Hj. apply std_nonzero_iff.
  destruct j as [|[|j]]; [| |unfold X_small in Hj; cbn [shape1] in Hj; lia].
  - exists 0, 2. unfold column, X_small. simpl. repeat split; auto; lra.
  - exists 1, 5. unfold column, X_small. simpl. repeat split; auto; lra.
Qed.

(** C4: the normalization line has no guard on the divisor: it raises
    on no array, whatever the standard deviations are.  And for every
    array [X] whose columns all have a nonzero population standard
    deviation (each column then holds two distinct values), the line with
    the guarded division returns the same array: its [ZeroDivisionError]
    branch is not reached. *)
Theorem zero_division_unreachable (X : ndarray2 R) :
  X_norm X = Ok (normalized X)
  /\ ((forall j, (j < shape1 X)%nat -> np.std (column 0 X j) <> 0) ->
      (forall j, (j < shape1 X)%nat ->
         exists x y, In x (column 0 X j) /\ In y (column 0 X j) /\ x <> y)
      /\ X_norm_checked X = X_norm X
      /\ X_norm_checked X <> Raise ZeroDivisionError).
Proof.
  split; [apply X_norm_ok|]. intros H.
  split; [intros j Hj; apply std_nonzero_iff, H, Hj|].
  rewrite X_norm_ok, (X_norm_checked_ok X H).
  split; [reflexivity|discriminate].
Qed.

(** C4 at the array with columns [0, 2] and [1, 5]. *)
Lemma zero_division_unreachable_witness :
  (forall j, (j < shape1 X_small)%nat ->
     exists x y, In x (column 0 X_small j) /\ In y (column 0 X_small j)
                 /\ x <> y)
  /\ X_norm_checked X_small = X_norm X_small
  /\ X_norm_checked X_small <> Raise ZeroDivisionError.
Proof.
  apply (proj2 (@zero_division_unreachable X_small)).
  exact X_small_std_nonzero.
Defined.

(** *** Mean and deviation of the normalized array *)

Lemma map_nth_seq {A} (d : A) (l : list A) :
  map (fun j => nth j l d) (seq 0 (length l)) = l.
Proof.
  induction l as [|x l IH]; [reflexivity|].
  cbn [length seq map nth]. f_equal.
  rewrite <- seq_shift, map_map. exact IH.
Qed.

(** Summing an array row by row or column by column gives one total. *)
Lemma sum_concat_columns (m : nat) (rows : list (list R)) :
  (forall row, In row rows -> length row = m) ->
  np.sum (concat rows)
  = np.sum (map (fun j => np.sum (map (fun row => nth j row 0) rows)) (seq 0 m)).
Proof.
  induction rows as [|r rows IH]; intros H.
  - cbn [concat map]. symmetry. apply sum_all_zero.
    intros x Hx. apply in_map_iff in Hx as (j & <- & _). reflexivity.
  - cbn [concat map]. rewrite sum_app.
    rewrite (map_ext _ (fun j => nth j r 0
                                 + np.sum (map (fun row => nth j row 0) rows)))
      by reflexivity.
    rewrite (sum_map_plus (fun j => nth j r 0)).
    rewrite <- IH by (intros row Hrow; apply H; now right).
    f_equal. rewrite <- (H r) by now left. now rewrite map_nth_seq.
Qed.

Lemma mean_all_normalized (X : ndarray2 R) :
  wf X = true ->
  (forall j, (j < shape1 X)%nat -> np.std (column 0 X j) <> 0) ->
  np.mean_all (normalized X) = 0.
Proof.
  intros Hwf H. unfold np.mean_all, np.mean.
  rewrite sum_concat_columns with (m := shape1 X).
  - rewrite sum_all_zero; [unfold Rdiv; lra|].
    intros x Hx. apply in_map_iff in Hx as (j & <- & Hj). apply in_seq in Hj.
    fold (column 0 (normalized X) j).
    rewrite normalized_column by (try assumption; lia).
    apply sum_normalized, H. lia.
  - intros row Hrow. apply (wf_rows (normalized X)); [|exact Hrow].
    now apply normalized_wf.
Qed.

(** An array with a column of nonzero deviation has entries. *)
Lemma normalized_nonempty (X : ndarray2 R) :
  wf X = true -> (0 < shape1 X)%nat ->
  np.std (column 0 X 0) <> 0 ->
  concat (data (normalized X)) <> [].
Proof.
  intros Hwf Hm Hs.
  pose proof (normalized_wf X Hwf) as Hwf'.
  pose proof (std_nonzero_nonempty Hs) as Hne.
  unfold column in Hne. unfold normalized in *. cbn [data shape1] in *.
  destruct (data X) as [|row rows]; [now elim Hne|].
  cbn [map concat] in *. intros E. apply app_eq_nil in E as [E _].
  pose proof (@wf_rows R {| shape1 := shape1 X;
                            data := np.zip_with Rdiv
                                      (np.zip_with Rminus row (ave_cols X))
                                      (std_cols X) :: map _ rows |}
                _ Hwf' (or_introl eq_refl)) as Hlen.
  cbn [shape1] in Hlen. rewrite E in Hlen. simpl in Hlen. lia.
Qed.

(** C7: in exact arithmetic, for every array [X] whose columns all have a
    nonzero population standard deviation, every column of [X_norm] has
    mean 0 and population standard deviation 1, and the mean of all
    entries of [X_norm] is 0 (a mean of at least one entry, when [X] has a
    column). *)
Theorem normalized_columns_are_standard (X : ndarray2 R) :
  wf X = true ->
  (forall j, (j < shape1 X)%nat -> np.std (column 0 X j) <> 0) ->
  exists Y,
    X_norm X = Ok Y
    /\ shape Y = shape X
    /\ (forall j, (j < shape1 X)%nat ->
          np.mean (column 0 Y j) = 0 /\ np.std (column 0 Y j) = 1)
    /\ np.mean_all Y = 0
    /\ ((0 < shape1 X)%nat -> concat (data Y) <> []).
Proof.
  intros Hwf H. exists (normalized X).
  split; [apply X_norm_ok|]. split; [apply normalized_shape|]. split; [|split].
  - intros j Hj. rewrite normalized_column by assumption. split.
    + apply mean_normalized, H, Hj.
    + apply std_normalized, H, Hj.
  - now apply mean_all_normalized.
  - intros Hm. apply normalized_nonempty; auto.
Qed.

(** C7 at the array with columns [0, 2] and [1, 5]. *)
Lemma normalized_columns_are_standard_witness :
  exists Y,
    X_norm X_small = Ok Y
    /\ shape Y = shape X_small
    /\ (forall j, (j < shape1 X_small)%nat ->
          np.mean (column 0 Y j) = 0 /\ np.std (column 0 Y j) = 1)
    /\ np.mean_all Y = 0
    /\ ((0 < shape1 X_small)%nat -> concat (data Y) <> []).
Proof.
  apply (@normalized_columns_are_standard X_small).
  - reflexivity.
  - exact X_small_std_nonzero.
Defined.

End NormalizationFacts.

(** ** Data separation: which rows each set holds *)

Module SeparationMore.

Import DataSeparation.

Lemma selects_in_range (mask : list bool) (i : nat) :
  selects mask i = true -> i < length mask.
Proof.
  unfold selects. intros H.
  destruct (Nat.lt_ge_cases i (length mask)) as [Hlt|Hge]; [exact Hlt|].
  rewrite nth_overflow in H by exact Hge. discriminate.
Qed.

Lemma arange_NoDup (n : nat) : NoDup (np.arange n).
Proof.
  unfold np.arange. apply Finite.Injective_map_NoDup.
  - intros a b H. now apply Nat2Z.inj.
  - apply seq_NoDup.
Qed.

(** X1: whatever [row_indices] holds, a row position that goes to
    [X_train] goes neither to [X_crossVal] nor to [X_test]: no training
    row is also a validation or a test row. *)
Theorem training_rows_are_held_out (row_indices : list Z) (i : nat) :
  In i (np.flatnonzero (train_mask row_indices)) ->
  ~ In i (np.flatnonzero (crossVal_mask row_indices))
  /\ ~ In i (np.flatnonzero (test_mask row_indices)).
Proof.
  rewrite !MaskFacts.In_flatnonzero. intros Ht.
  assert (Hi : i < length row_indices).
  { apply selects_in_range in Ht.
    now rewrite SeparationFacts.train_mask_length in Ht. }
  rewrite SeparationFacts.train_mask_map in Ht.
  rewrite SeparationFacts.crossVal_mask_map, SeparationFacts.test_mask_map.
  rewrite (@SeparationFacts.selects_map Z _ 0%Z) in Ht by exact Hi.
  rewrite !(@SeparationFacts.selects_map Z _ 0%Z) by exact Hi.
  apply Z.ltb_lt in Ht.
  split; intros H.
  - apply andb_true_iff in H as [H _]. rewrite Z.gtb_ltb in H.
    apply Z.ltb_lt in H. lia.
  - rewrite Z.geb_leb in H. apply Z.leb_le in H. lia.
Qed.

(** X1 at row position 500 of the reversed identity permutation, where
    the index is 499. *)
Lemma training_rows_are_held_out_witness :
  ~ In 500 (np.flatnonzero (crossVal_mask (rev (np.arange 1000))))
  /\ ~ In 500 (np.flatnonzero (test_mask (rev (np.arange 1000)))).
Proof.
  apply (@training_rows_are_held_out (rev (np.arange 1000)) 500).
  apply MaskFacts.In_flatnonzero. vm_compute. reflexivity.
Defined.

(** X2: for every permutation [row_indices] of [0 .. 999], one row
    position (where the index is 600) is in none of the three sets, one
    (where the index is 800) is in two of them, and each of the other 998
    is in exactly one. *)
Theorem split_membership (row_indices : list Z) :
  Permutation row_indices (np.arange 1000) ->
  exists lost twice,
    lost < 1000 /\ twice < 1000
    /\ nth lost row_indices 0%Z = 600%Z
    /\ nth twice row_indices 0%Z = 800%Z
    /\ forall i, i < 1000 ->
         membership_count row_indices i
         = if i =? lost then 0 else if i =? twice then 2 else 1.
Proof.
  intros Hp.
  assert (Hlen : length row_indices = 1000)
    by (rewrite (Permutation_length Hp); apply SeparationFacts.arange_length).
  assert (Hnd : NoDup row_indices)
    by (apply (Permutation_NoDup (Permutation_sym Hp)), arange_NoDup).
  assert (Hin : forall k, k < 1000 -> In (Z.of_nat k) row_indices).
  { intros k Hk. apply (Permutation_in _ (Permutation_sym Hp)).
    unfold np.arange. apply in_map, in_seq. lia. }
  destruct (In_nth _ _ 0%Z (Hin 600 ltac:(lia))) as (lost & Hl & El).
  destruct (In_nth _ _ 0%Z (Hin 800 ltac:(lia))) as (twice & Ht & Et).
  exists lost, twice. rewrite Hlen in Hl, Ht.
  repeat (split; [assumption|]).
  intros i Hi.
  rewrite SeparationFacts.membership_count_by_value by lia.
  destruct (Nat.eqb_spec i lost) as [->|Nl]; [now rewrite El|].
  destruct (Z.eqb_spec (nth i row_indices 0%Z) 600) as [E|_].
  { exfalso. apply Nl. apply (proj1 (NoDup_nth row_indices 0%Z) Hnd); lia. }
  destruct (Nat.eqb_spec i twice) as [->|Nt]; [now rewrite Et|].
  destruct (Z.eqb_spec (nth i row_indices 0%Z) 800) as [E|_]; [|reflexivity].
  exfalso. apply Nt. apply (proj1 (NoDup_nth row_indices 0%Z) Hnd); lia.
Qed.

(** X2 at the reversed identity permutation. *)
Lemma split_membership_witness :
  exists lost twice,
    lost < 1000 /\ twice < 1000
    /\ nth lost (rev (np.arange 1000)) 0%Z = 600%Z
    /\ nth twice (rev (np.arange 1000)) 0%Z = 800%Z
    /\ forall i, i < 1000 ->
         membership_count (rev (np.arange 1000)) i
         = if i =? lost then 0 else if i =? twice then 2 else 1.
Proof.
  apply (@split_membership (rev (np.arange 1000))).
  apply Permutation_sym, Permutation_rev.
Defined.

End SeparationMore.

(** ** The training loop: what is printed and what is trained *)

Module TrainingMore.

Import Training TrainingLog.

Lemma div_succ (t : Z) :
  (0 <= t)%Z ->
  ((t + 1) / print_every
   = t / print_every + (if (t + 1) mod print_every =? 0 then 1 else 0))%Z.
Proof.
  intros Ht. unfold print_every.
  destruct (Z.eqb_spec ((t + 1) mod 40) 0) as [E|N];
    Z.to_euclidean_division_equations; lia.
Qed.

Section Loop.

Variables Model Batch Loss : Type.
Variable fzero : Loss.
Variable fadd : Loss -> Loss -> Loss.
Variable fdiv : Loss -> Z -> Loss.
Variable train_step : Model -> Batch -> Model * Loss.
Variable trainloader : nat -> list Batch.

#[local] Abbreviation body := (batch_body fzero fadd fdiv train_step).
#[local] Abbreviation epoch := (epoch_body fzero fadd fdiv train_step trainloader).
#[local] Abbreviation training := (train fzero fadd fdiv train_step trainloader).
#[local] Abbreviation state := (loop_state Model Loss).
#[local] Abbreviation all := (all_batches trainloader).
#[local] Abbreviation estart := (epoch_start trainloader).

Lemma labels_body (e : nat) (s : state) (b : Batch) :
  labels (body e s b)
  = labels s ++ (if ((steps s + 1) mod print_every =? 0)%Z then [e + 1] else []).
Proof.
  unfold labels, stdout, batch_body.
  destruct (train_step (model s) b) as [m' l].
  destruct (_ =? _)%Z; cbn [trace]; rewrite flat_map_app, map_app; reflexivity.
Qed.

Lemma steps_batches (e : nat) (bs : list Batch) :
  forall s : state,
  steps (fold_left (body e) bs s) = (steps s + Z.of_nat (length bs))%Z.
Proof.
  induction bs as [|b bs IH]; intros s; cbn [fold_left length]; [lia|].
  rewrite IH, TrainingFacts.body_steps. lia.
Qed.

Lemma labels_batches (e : nat) (bs : list Batch) :
  forall s : state,
  (0 <= steps s)%Z ->
  labels (fold_left (body e) bs s)
  = labels s ++ repeat (e + 1)
                  (Z.to_nat ((steps s + Z.of_nat (length bs)) / print_every
                             - steps s / print_every)).
Proof.
  induction bs as [|b bs IH]; intros s Hs; cbn [fold_left length].
  - replace (steps s + Z.of_nat 0)%Z with (steps s) by lia.
    rewrite Z.sub_diag. cbn [Z.to_nat repeat]. now rewrite app_nil_r.
  - rewrite IH by (rewrite TrainingFacts.body_steps; lia).
    rewrite labels_body, TrainingFacts.body_steps, <- app_assoc. f_equal.
    replace (steps s + 1 + Z.of_nat (length bs))%Z
      with (steps s + Z.of_nat (S (length bs)))%Z by lia.
    set (A := ((steps s + Z.of_nat (S (length bs))) / print_every)%Z).
    assert (HA : ((steps s + 1) / print_every <= A)%Z)
      by (apply Z.div_le_mono; unfold print_every; lia).
    rewrite (div_succ Hs) in *.
    destruct (_ =? _)%Z.
    + replace (Z.to_nat (A - steps s / print_every))
        with (S (Z.to_nat (A - (steps s / print_every + 1)))) by lia.
      reflexivity.
    + now rewrite Z.add_0_r.
Qed.

Lemma steps_epoch (s : state) (e : nat) :
  steps s = Z.of_nat (estart e) ->
  steps (epoch s e) = Z.of_nat (estart (S e)).
Proof.
  intros H. unfold epoch_body. rewrite steps_batches.
  cbn [reset_running_loss steps]. rewrite H, TrainingFacts.epoch_start_succ. lia.
Qed.

Lemma labels_epoch (s : state) (e : nat) :
  steps s = Z.of_nat (estart e) ->
  labels (epoch s e)
  = labels s ++ repeat (e + 1) (lines_in_epoch trainloader e).
Proof.
  intros H. unfold epoch_body.
  rewrite labels_batches by (cbn [reset_running_loss steps]; lia).
  cbn [reset_running_loss steps]. unfold lines_in_epoch.
  rewrite H, TrainingFacts.epoch_start_succ.
  unfold labels, stdout. cbn [trace]. do 4 f_equal. lia.
Qed.

Lemma labels_epochs (n : nat) :
  forall (e : nat) (s : state),
  steps s = Z.of_nat (estart e) ->
  labels (fold_left epoch (seq e n) s)
  = labels s
    ++ concat (map (fun e' => repeat (e' + 1) (lines_in_epoch trainloader e'))
                   (seq e n)).
Proof.
  induction n as [|n IH]; intros e s H; cbn [seq fold_left map concat].
  - now rewrite app_nil_r.
  - rewrite IH by now apply steps_epoch.
    rewrite labels_epoch by exact H. now rewrite <- app_assoc.
Qed.

(** X3: for every network, loss arithmetic and batch lists, the printed
    lines are labelled epoch 1, then epoch 2, then epoch 3, and epoch [e]
    contributes as many lines as there are multiples of [print_every]
    among its steps, counted across epochs; in all, the loop prints the
    number of batches divided by [print_every], rounded down. *)
Theorem lines_per_epoch (m : Model) :
  labels (training m)
  = concat (map (fun e => repeat (e + 1) (lines_in_epoch trainloader e))
                (seq 0 epochs))
  /\ Z.of_nat (length (stdout (training m)))
     = (Z.of_nat (length all) / print_every)%Z.
Proof.
  assert (L : labels (training m)
              = concat (map (fun e => repeat (e + 1) (lines_in_epoch trainloader e))
                            (seq 0 epochs))).
  { unfold train. now rewrite labels_epochs. }
  split; [exact L|].
  assert (E : length (stdout (training m)) = length (labels (training m)))
    by (unfold labels; now rewrite length_map).
  rewrite E, L. clear E L.
  change (length all) with (estart epochs).
  assert (G : forall n,
            Z.of_nat (length (concat (map (fun e => repeat (e + 1)
                                             (lines_in_epoch trainloader e))
                                          (seq 0 n))))
            = (Z.of_nat (estart n) / print_every)%Z).
  { induction n as [|n IH]; [reflexivity|].
    rewrite seq_S, map_app, concat_app, length_app, Nat2Z.inj_add, IH.
    cbn [map concat Nat.add]. rewrite app_nil_r, repeat_length.
    unfold lines_in_epoch.
    assert ((Z.of_nat (estart n) / print_every
             <= Z.of_nat (estart (S n)) / print_every)%Z).
    { apply Z.div_le_mono; [unfold print_every; lia|].
      rewrite TrainingFacts.epoch_start_succ. lia. }
    lia. }
  apply G.
Qed.

(** X4: for every network, loss arithmetic and batch lists, iteration
    [k+1], in epoch [e], prints nothing unless [k+1] is a multiple of
    [print_every]; then it prints one line, labelled epoch [e+1] of 3,
    whose value is the sum, in order, of the losses of the steps after
    the later of step [k+1-40] and the head of epoch [e], over
    [print_every]. *)
Theorem line_of_step (m : Model) (e k : nat) :
  estart e <= k < estart (S e) ->
  k < length all ->
  ((Z.of_nat (S k) mod print_every <> 0)%Z ->
   nth k (trace (training m)) None = None)
  /\ ((Z.of_nat (S k) mod print_every = 0)%Z ->
      nth k (trace (training m)) None
      = Some {| epoch_no := e + 1;
                epoch_of := epochs;
                loss_value :=
                  fdiv (accumulate fzero fadd
                          (window (step_losses train_step m all)
                                  (Nat.max (estart e) (S k - 40)) (S k)))
                       print_every |}).
Proof.
  intros He Hk.
  rewrite (@TrainingFacts.printed_lines _ _ _ fzero fadd fdiv train_step
             trainloader m e k He Hk).
  unfold entry_at. split; intros H.
  - apply Z.eqb_neq in H. now rewrite H.
  - apply Z.eqb_eq in H. now rewrite H.
Qed.

(** X5: where epoch [e] begins at a multiple of [print_every] steps (the
    first epoch always does), every line printed in it shows the sum of
    the losses of the [print_every] steps since the line before, over
    [print_every]. *)
Theorem aligned_epoch_lines (m : Model) (e k : nat) :
  (Z.of_nat (estart e) mod print_every = 0)%Z ->
  estart e <= k < estart (S e) ->
  k < length all ->
  (Z.of_nat (S k) mod print_every = 0)%Z ->
  nth k (trace (training m)) None
  = Some (claimed_line_at fzero fadd fdiv train_step trainloader m e (S k)).
Proof.
  intros Ha He Hk Hp.
  rewrite (@TrainingFacts.printed_lines _ _ _ fzero fadd fdiv train_step
             trainloader m e k He Hk).
  unfold entry_at. apply Z.eqb_eq in Hp. rewrite Hp. apply Z.eqb_eq in Hp.
  f_equal. apply TrainingFacts.line_within_epoch.
  unfold period, print_every in *.
  zify. Z.to_euclidean_division_equations. lia.
Qed.

(** X6: the network at the end of the cell is the network after one
    optimization step per batch, in the order the loader yields them,
    epoch after epoch, and [steps] is the number of batches; neither
    depends on [print_every] or on how the loss is accumulated and
    printed. *)
Theorem trained_model (m : Model) :
  model (training m) = model_after train_step m all
  /\ steps (training m) = Z.of_nat (length all).
Proof.
  assert (Hlog : logged fzero fadd fdiv train_step trainloader m (estart epochs)
                   (training m)).
  { unfold train.
    apply (@TrainingFacts.epochs_track Model Batch Loss fzero fadd fdiv
             train_step trainloader m epochs 0); [lia|].
    split; [reflexivity|]. split; [reflexivity|]. split; [reflexivity|].
    intros k' e' Hk'. unfold epoch_start in Hk'. simpl in Hk'. lia. }
  destruct Hlog as (Hs & _ & Hm & _).
  split; [|exact Hs].
  rewrite Hm. f_equal. apply firstn_all.
Qed.

End Loop.

(** X4 at step 960 of the run with 938 unit losses per epoch. *)
Lemma line_of_step_witness :
  ((Z.of_nat 960 mod print_every <> 0)%Z ->
   nth 959 (trace unit_run) None = None)
  /\ ((Z.of_nat 960 mod print_every = 0)%Z ->
      nth 959 (trace unit_run) None
      = Some {| epoch_no := 1 + 1;
                epoch_of := epochs;
                loss_value :=
                  q_div (accumulate 0%Q q_add
                           (window (step_losses q_step tt (all_batches unit_loader))
                                   (Nat.max (epoch_start unit_loader 1) (960 - 40))
                                   960))
                        print_every |}).
Proof.
  apply (@line_of_step unit Q Q 0%Q q_add q_div q_step unit_loader tt 1 959).
  - vm_compute. lia.
  - vm_compute. lia.
Defined.

(** X5 at step 120 of a run with 80 batches per epoch. *)
Lemma aligned_epoch_lines_witness :
  nth 119 (trace (train 0%Q q_add q_div q_step aligned_loader tt)) None
  = Some (claimed_line_at 0%Q q_add q_div q_step aligned_loader tt 1 120).
Proof.
  apply (@aligned_epoch_lines unit Q Q 0%Q q_add q_div q_step aligned_loader tt 1 119).
  - vm_compute. reflexivity.
  - vm_compute. lia.
  - vm_compute. lia.
  - vm_compute. reflexivity.
Defined.

End TrainingMore.

(** ** Mean normalization: order, repetition, change of units *)

Module NormalizationMore.

Import MeanNormalization Checks NormalizationFacts.

#[local] Open Scope R_scope.






Lemma normalized_mean_std (X : ndarray2 R) (j : nat) :
  wf X = true -> (j < shape1 X)%nat -> np.std (column 0 X j) <> 0 ->
  np.mean (column 0 (normalized X) j) = 0
  /\ np.std (column 0 (normalized X) j) = 1.
Proof.
  intros Hwf Hj Hs. rewrite normalized_column by assumption.
  split; [now apply mean_normalized|now apply std_normalized].
Qed.




(** *** A change of units *)









(** *** The printed checks *)

Lemma fold_Rmin_le (l : list R) :
  forall x, fold_left Rmin l x <= x
            /\ (forall y, In y l -> fold_left Rmin l x <= y)
            /\ (fold_left Rmin l x = x \/ In (fold_left Rmin l x) l).
Proof.
  induction l as [|z l IH]; intros x; cbn [fold_left].
  - split; [lra|]. split; [intros y []|now left].
  - destruct (IH (Rmin x z)) as (H1 & H2 & H3).
    pose proof (Rmin_l x z). pose proof (Rmin_r x z).
    split; [lra|]. split.
    + intros y [<-|Hy]; [lra|now apply H2].
    + destruct H3 as [E|Hin]; [|right; now right].
      rewrite E. unfold Rmin. destruct (Rle_dec x z); [now left|right; now left].
Qed.

Lemma fold_Rmax_ge (l : list R) :
  forall x, x <= fold_left Rmax l x
            /\ (forall y, In y l -> y <= fold_left Rmax l x).
Proof.
  induction l as [|z l IH]; intros x; cbn [fold_left].
  - split; [lra|intros y []].
  - destruct (IH (Rmax x z)) as (H1 & H2).
    pose proof (Rmax_l x z). pose proof (Rmax_r x z).
    split; [lra|]. intros y [<-|Hy]; [lra|now apply H2].
Qed.

Lemma amin_total_le (l : list R) (y : R) : In y l -> amin_total l <= y.
Proof.
  destruct l as [|x l]; [intros []|]. cbn [amin_total].
  destruct (fold_Rmin_le l x) as (H1 & H2 & _).
  intros [<-|Hy]; [exact H1|now apply H2].
Qed.

Lemma amax_total_ge (l : list R) (y : R) : In y l -> y <= amax_total l.
Proof.
  destruct l as [|x l]; [intros []|]. cbn [amax_total].
  destruct (fold_Rmax_ge l x) as (H1 & H2).
  intros [<-|Hy]; [exact H1|now apply H2].
Qed.

Lemma sum_negative (l : list R) :
  l <> [] -> (forall x, In x l -> x < 0) -> np.sum l < 0.
Proof.
  intros Hne H.
  assert (0 < np.sum (map Ropp l)).
  { destruct l as [|x l]; [congruence|].
    apply sum_pos with (x := - x).
    - intros y Hy. apply in_map_iff in Hy as (z & <- & Hz).
      specialize (H z Hz). lra.
    - now left.
    - specialize (H x (or_introl eq_refl)). lra. }
  assert (E : np.sum (map Ropp l) = - np.sum l).
  { rewrite (map_ext _ (fun x => -1 * x + 0)) by (intros; ring).
    rewrite sum_map_affine. ring. }
  lra.
Qed.

Lemma mean_negative (l : list R) :
  l <> [] -> (forall x, In x l -> x < 0) -> np.mean l < 0.
Proof.
  intros Hne H. unfold np.mean, Rdiv.
  pose proof (sum_negative Hne H).
  pose proof (Rinv_0_lt_compat _ (INR_length_pos Hne)).
  nra.
Qed.

Lemma mean_positive (l : list R) :
  l <> [] -> (forall x, In x l -> 0 < x) -> 0 < np.mean l.
Proof.
  intros Hne H. unfold np.mean, Rdiv.
  assert (0 < np.sum l).
  { destruct l as [|x l]; [congruence|].
    apply sum_pos with (x := x); [|now left|apply H; now left].
    intros y Hy. specialize (H y Hy). lra. }
  pose proof (Rinv_0_lt_compat _ (INR_length_pos Hne)).
  nra.
Qed.

(** A column of mean 0 that is not constant has an entry below 0 and an
    entry above 0. *)
Lemma both_signs (l : list R) :
  np.mean l = 0 -> np.std l <> 0 ->
  (exists x, In x l /\ x < 0) /\ (exists y, In y l /\ 0 < y).
Proof.
  intros Hm Hs.
  pose proof (std_nonzero_nonempty Hs) as Hne.
  assert (Hsum : np.sum l = 0) by (rewrite sum_of_mean, Hm; ring).
  apply std_nonzero_iff in Hs as (u & v & Hu & Hv & Huv).
  assert (Hnz : exists w, In w l /\ w <> 0).
  { destruct (Req_dec_T u 0) as [->|Nu]; [exists v|exists u]; split; auto. }
  destruct Hnz as (w & Hw & Nw).
  assert (Hcases : forall P : R -> Prop,
            (forall x, {P x} + {~ P x}) ->
            (exists x, In x l /\ P x) \/ (forall x, In x l -> ~ P x)).
  { intros P dec. clear -dec. induction l as [|z l [(x & Hx & Px)|IH]].
    - right. intros x [].
    - left. exists x. split; [now right|exact Px].
    - destruct (dec z) as [Pz|Nz].
      + left. exists z. split; [now left|exact Pz].
      + right. intros x [<-|Hx]; [exact Nz|now apply IH]. }
  split.
  - destruct (Hcases (fun x => x < 0) (fun x => Rlt_dec x 0)) as [Hex|Hall];
      [exact Hex|exfalso].
    assert (0 < np.sum l); [|lra].
    apply sum_pos with (x := w); [|exact Hw|].
    + intros y Hy. specialize (Hall y Hy). lra.
    + specialize (Hall w Hw). lra.
  - destruct (Hcases (fun x => 0 < x) (fun x => Rlt_dec 0 x)) as [Hex|Hall];
      [exact Hex|exfalso].
    assert (0 < np.sum (map Ropp l)).
    { apply sum_pos with (x := - w).
      - intros z Hz. apply in_map_iff in Hz as (z' & <- & Hz').
        specialize (Hall z' Hz'). lra.
      - apply in_map. exact Hw.
      - specialize (Hall w Hw). lra. }
    assert (E : np.sum (map Ropp l) = - np.sum l).
    { rewrite (map_ext _ (fun x => -1 * x + 0)) by (intros; ring).
      rewrite sum_map_affine. ring. }
    lra.
Qed.

Lemma min_axis0_ok (a : ndarray2 R) :
  data a <> [] ->
  min_axis0 a = Ok (map (fun j => amin_total (column 0 a j)) (seq 0 (shape1 a))).
Proof.
  intros Hne. unfold min_axis0. apply sequence_all_ok.
  intros j _. unfold column. destruct (data a); [congruence|reflexivity].
Qed.

Lemma max_axis0_ok (a : ndarray2 R) :
  data a <> [] ->
  max_axis0 a = Ok (map (fun j => amax_total (column 0 a j)) (seq 0 (shape1 a))).
Proof.
  intros Hne. unfold max_axis0. apply sequence_all_ok.
  intros j _. unfold column. destruct (data a); [congruence|reflexivity].
Qed.

(** X10: the three checks the notebook prints.  For every array with at
    least one column whose columns all have a nonzero standard deviation,
    the mean of all entries of [X_norm] is 0, the mean of its column
    minima is below 0 and the mean of its column maxima is above 0. *)
Theorem printed_checks (X : ndarray2 R) :
  wf X = true ->
  (0 < shape1 X)%nat ->
  (forall j, (j < shape1 X)%nat -> np.std (column 0 X j) <> 0) ->
  exists Y lo hi,
    X_norm X = Ok Y
    /\ np.mean_all Y = 0
    /\ mean_of_minima Y = Ok lo
    /\ mean_of_maxima Y = Ok hi
    /\ lo < 0 < hi.
Proof.
  intros Hwf Hm H.
  set (Y := normalized X).
  assert (HY : data Y <> []).
  { pose proof (std_nonzero_nonempty (H O Hm)) as Hne.
    unfold column in Hne. unfold Y, normalized. cbn [data].
    destruct (data X); [now elim Hne|discriminate]. }
  assert (Hseq : seq 0 (shape1 X) <> [])
    by (destruct (shape1 X); [lia|discriminate]).
  exists Y, (np.mean (map (fun j => amin_total (column 0 Y j)) (seq 0 (shape1 Y)))),
    (np.mean (map (fun j => amax_total (column 0 Y j)) (seq 0 (shape1 Y)))).
  split; [apply X_norm_ok|].
  split; [now apply mean_all_normalized|].
  unfold mean_of_minima, mean_of_maxima.
  rewrite min_axis0_ok, max_axis0_ok by exact HY. cbn [bind].
  split; [reflexivity|]. split; [reflexivity|].
  change (shape1 Y) with (shape1 X).
  assert (Hcol : forall j, In j (seq 0 (shape1 X)) ->
            (exists x, In x (column 0 Y j) /\ x < 0)
            /\ (exists y, In y (column 0 Y j) /\ 0 < y)).
  { intros j Hj. apply in_seq in Hj.
    destruct (@normalized_mean_std X j Hwf ltac:(lia) (H j ltac:(lia)))
      as [Em Es].
    apply both_signs; [exact Em|]. fold Y in Es. rewrite Es. lra. }
  split.
  - apply mean_negative.
    + intros E. apply map_eq_nil in E. contradiction.
    + intros v Hv. apply in_map_iff in Hv as (j & <- & Hj).
      destruct (Hcol j Hj) as [(x & Hx & Nx) _].
      pose proof (@amin_total_le _ _ Hx). lra.
  - apply mean_positive.
    + intros E. apply map_eq_nil in E. contradiction.
    + intros v Hv. apply in_map_iff in Hv as (j & <- & Hj).
      destruct (Hcol j Hj) as [_ (y & Hy & Py)].
      pose proof (@amax_total_ge _ _ Hy). lra.
Qed.

(** X10 on the array with columns [0, 2] and [1, 5]. *)
Lemma printed_checks_witness :
  exists Y lo hi,
    X_norm X_small = Ok Y
    /\ np.mean_all Y = 0
    /\ mean_of_minima Y = Ok lo
    /\ mean_of_maxima Y = Ok hi
    /\ lo < 0 < hi.
Proof.
  apply (@printed_checks X_small).
  - reflexivity.
  - unfold X_small. cbn [shape1]. lia.
  - exact X_small_std_nonzero.
Defined.

(** *** The statistics of a bounded array *)









(** *** How far an entry of a normalized column can lie from 0 *)





End NormalizationMore.

(** ** The data loader: batches of an epoch *)

Module LoaderFacts.

Import Training TrainingLog Loader.

Lemma batched_fuel_concat {A} (b : nat) :
  0 < b ->
  forall (fuel : nat) (l : list A),
  length l <= fuel -> concat (batched_fuel fuel b l) = l.
Proof.
  intros Hb. induction fuel as [|fuel IH]; intros l Hl.
  - destruct l; [reflexivity|simpl in Hl; lia].
  - destruct l as [|x l]; [reflexivity|].
    cbn [batched_fuel concat].
    rewrite IH; [apply firstn_skipn|].
    rewrite length_skipn. cbn [length] in *. lia.
Qed.

Lemma batched_fuel_sizes {A} (b : nat) :
  0 < b ->
  forall (fuel : nat) (l : list A),
  length l <= fuel ->
  Forall (fun batch => 0 < length batch <= b) (batched_fuel fuel b l)
  /\ Forall (fun batch => length batch = b)
            (removelast (batched_fuel fuel b l))
  /\ length l <= b * length (batched_fuel fuel b l)
  /\ b * length (batched_fuel fuel b l) < length l + b.
Proof.
  intros Hb. induction fuel as [|fuel IH]; intros l Hl.
  - destruct l; [|simpl in Hl; lia]. cbn [batched_fuel removelast length].
    repeat split; try constructor; lia.
  - destruct l as [|x l].
    { cbn [batched_fuel removelast length]. repeat split; try constructor; lia. }
    cbn [batched_fuel].
    remember (x :: l) as l0 eqn:El0.
    assert (Hl0 : 0 < length l0) by (rewrite El0; cbn [length]; lia).
    clear El0 x l.
    assert (Hskip : length (skipn b l0) <= fuel)
      by (rewrite length_skipn; lia).
    destruct (IH (skipn b l0) Hskip) as (F1 & F2 & B1 & B2).
    rewrite length_skipn in B1, B2.
    assert (Hfirst : length (firstn b l0) = Nat.min b (length l0))
      by apply length_firstn.
    split; [|split; [|split]].
    + constructor; [lia|exact F1].
    + destruct (batched_fuel fuel b (skipn b l0)) as [|bt rest] eqn:E.
      * constructor.
      * change (removelast (firstn b l0 :: bt :: rest))
          with (firstn b l0 :: removelast (bt :: rest)).
        constructor; [|exact F2].
        (* a further batch exists, so this one is full *)
        cbn [length] in B2. rewrite Nat.mul_succ_r in B2. lia.
    + cbn [length]. rewrite Nat.mul_succ_r. lia.
    + cbn [length]. rewrite Nat.mul_succ_r.
      destruct (Nat.le_gt_cases b (length l0)) as [Hge|Hlt]; [lia|].
      assert (E : skipn b l0 = []) by (apply skipn_all2; lia).
      rewrite E. destruct fuel; cbn [batched_fuel length]; lia.
Qed.

(** X13: what an epoch of the loader yields.  For every data set and
    every order that is a permutation of its positions, the batches of
    the epoch, put end to end, hold every example exactly once; no batch
    is empty or holds more than 64 examples; every batch but the last
    holds exactly 64; and the number [k] of batches is the size of the
    data set over 64, rounded up ([n <= 64 * k < n + 64]). *)
Theorem epoch_covers_dataset {A} (d : A) (dataset : list A) (order : list nat) :
  Permutation order (seq 0 (length dataset)) ->
  Permutation (concat (epoch_batches d dataset order)) dataset
  /\ Forall (fun batch => 0 < length batch <= batch_size)
            (epoch_batches d dataset order)
  /\ Forall (fun batch => length batch = batch_size)
            (removelast (epoch_batches d dataset order))
  /\ length dataset <= batch_size * length (epoch_batches d dataset order)
     < length dataset + batch_size.
Proof.
  intros Hp. unfold epoch_batches, batched.
  set (l := map (fun i => nth i dataset d) order).
  assert (Hlen : length l = length dataset)
    by (unfold l; now rewrite length_map, (Permutation_length Hp), length_seq).
  assert (Hb : 0 < batch_size) by (unfold batch_size; lia).
  destruct (@batched_fuel_sizes _ _ Hb (length l) l (Nat.le_refl _))
    as (F1 & F2 & B1 & B2).
  split.
  - rewrite (@batched_fuel_concat _ _ Hb (length l) l) by lia. unfold l.
    apply Permutation_trans
      with (map (fun i => nth i dataset d) (seq 0 (length dataset))).
    + now apply Permutation_map.
    + now rewrite NormalizationFacts.map_nth_seq.
  - rewrite <- Hlen. repeat split; assumption.
Qed.

(** X13 on 130 numbered examples taken in reverse order. *)
Lemma epoch_covers_dataset_witness :
  Permutation (concat (epoch_batches 0 small_dataset (rev (seq 0 130))))
    small_dataset
  /\ Forall (fun batch => 0 < length batch <= batch_size)
            (epoch_batches 0 small_dataset (rev (seq 0 130)))
  /\ Forall (fun batch => length batch = batch_size)
            (removelast (epoch_batches 0 small_dataset (rev (seq 0 130))))
  /\ length small_dataset
     <= batch_size * length (epoch_batches 0 small_dataset (rev (seq 0 130)))
     < length small_dataset + batch_size.
Proof.
  apply (@epoch_covers_dataset nat 0 small_dataset (rev (seq 0 130))).
  apply Permutation_sym. exact (Permutation_rev (seq 0 130)).
Defined.

Section Run.

Variables Model Example Loss : Type.
Variable fzero : Loss.
Variable fadd : Loss -> Loss -> Loss.
Variable fdiv : Loss -> Z -> Loss.
Variable train_step : Model -> list Example -> Model * Loss.
Variable d : Example.
Variable dataset : list Example.
Variable order : nat -> list nat.

#[local] Abbreviation loader := (fun e => epoch_batches d dataset (order e)).

(** X14: the notebook's run.  For every data set of 60000 examples (the
    MNIST training set), every order of the examples in each epoch,
    every network and every loss arithmetic, each epoch has 938 batches
    and the loop prints 23 lines labelled epoch 1, then 23 labelled
    epoch 2, then 24 labelled epoch 3: the 70 lines of the recorded
    output. *)
Theorem mnist_run_prints_70_lines (m : Model) :
  Z.of_nat (length dataset) = 60000%Z ->
  (forall e, length (order e) = length dataset) ->
  (forall e, length (loader e) = 938)
  /\ labels (train fzero fadd fdiv train_step loader m)
     = repeat 1 23 ++ repeat 2 23 ++ repeat 3 24.
Proof.
  intros Hn Ho.
  assert (Hlen : forall e, length (loader e) = 938).
  { intros e. unfold epoch_batches, batched.
    set (l := map (fun i => nth i dataset d) (order e)).
    assert (Hl : Z.of_nat (length l) = 60000%Z)
      by (unfold l; now rewrite length_map, Ho).
    assert (Hb : 0 < batch_size) by (unfold batch_size; lia).
    destruct (@batched_fuel_sizes _ _ Hb (length l) l (Nat.le_refl _))
      as (_ & _ & B1 & B2).
    unfold batch_size in *. lia. }
  split; [exact Hlen|].
  unfold train.
  rewrite (TrainingMore.labels_epochs fzero fadd fdiv train_step loader epochs 0)
    by reflexivity.
  cbn [labels stdout initial trace flat_map map app].
  assert (E : forall e, epoch_start loader e = 938 * e).
  { induction e as [|e IH]; [reflexivity|].
    rewrite TrainingFacts.epoch_start_succ, IH, Hlen. lia. }
  unfold epochs, lines_in_epoch. cbn [seq map concat].
  rewrite !E. rewrite app_nil_r. reflexivity.
Qed.

End Run.

(** X14 on a data set of 60000 copies of one example, taken in order. *)
Lemma mnist_run_prints_70_lines_witness :
  (forall e : nat,
     length (epoch_batches tt (repeat tt (Z.to_nat 60000))
               (seq 0 (Z.to_nat 60000))) = 938)
  /\ labels (train 0%Q q_add q_div (fun (m : unit) (b : list unit) => (m, 1%Q))
               (fun e => epoch_batches tt (repeat tt (Z.to_nat 60000))
                           (seq 0 (Z.to_nat 60000))) tt)
     = repeat 1 23 ++ repeat 2 23 ++ repeat 3 24.
Proof.
  apply (@mnist_run_prints_70_lines unit unit Q 0%Q q_add q_div
           (fun (m : unit) (b : list unit) => (m, 1%Q)) tt
           (repeat tt (Z.to_nat 60000)) (fun _ => seq 0 (Z.to_nat 60000)) tt).
  - rewrite repeat_length. apply Z2Nat.id. lia.
  - intros e. now rewrite length_seq, repeat_length.
Defined.

End LoaderFacts.

(** ** The network: shapes and probabilities *)

Module NetworkFacts.

Import Network NormalizationFacts.

#[local] Open Scope R_scope.

Lemma linear_ok_shapes (L : Linear) :
  linear_ok L = true ->
  length (weight L) = out_features L
  /\ length (bias L) = out_features L.
Proof.
  unfold linear_ok. intros H.
  apply andb_true_iff in H as [H Hb]. apply andb_true_iff in H as [Hw _].
  apply Nat.eqb_eq in Hw, Hb. now split.
Qed.

Lemma apply_linear (L : Linear) (a : ndarray2 R) :
  linear_ok L = true -> shape1 a = in_features L ->
  exists b, apply_layer (Lin L) a = Some b
            /\ shape b = (shape0 a, out_features L)
            /\ wf b = true.
Proof.
  intros HL Ha. destruct (linear_ok_shapes L HL) as [Hw Hb].
  cbn [apply_layer]. rewrite Ha, Nat.eqb_refl. eexists. split; [reflexivity|].
  split.
  - unfold shape, shape0. cbn [data shape1]. now rewrite length_map.
  - unfold wf. cbn [data shape1]. rewrite forallb_forall.
    intros row Hrow. apply in_map_iff in Hrow as (x & <- & _).
    rewrite zip_with_length, length_map, Hw, Hb.
    apply Nat.eqb_eq. lia.
Qed.

Lemma apply_relu (a : ndarray2 R) :
  wf a = true ->
  exists b, apply_layer ReLU a = Some b
            /\ shape b = shape a
            /\ wf b = true.
Proof.
  intros Hwf. cbn [apply_layer]. eexists. split; [reflexivity|]. split.
  - unfold shape, shape0. cbn [data shape1]. now rewrite length_map.
  - unfold wf in *. cbn [data shape1]. rewrite forallb_forall in *.
    intros row Hrow. apply in_map_iff in Hrow as (x & <- & Hx).
    rewrite length_map. now apply Hwf.
Qed.

Lemma built_layers (fc1 fc2 logits : Linear) :
  built fc1 fc2 logits = true ->
  linear_ok fc1 = true /\ linear_ok fc2 = true /\ linear_ok logits = true
  /\ in_features fc1 = input_size
  /\ in_features fc2 = out_features fc1
  /\ in_features logits = out_features fc2
  /\ out_features logits = output_size.
Proof.
  unfold built. intros H.
  do 8 (apply andb_true_iff in H as [H ?]).
  repeat match goal with
         | E : (_ =? _)%nat = true |- _ => apply Nat.eqb_eq in E
         end.
  repeat split; try assumption; congruence.
Qed.

Lemma forward_ok (fc1 fc2 logits : Linear) (a : ndarray2 R) :
  built fc1 fc2 logits = true ->
  wf a = true -> shape1 a = input_size ->
  exists out,
    sequential (model fc1 fc2 logits) a = Some out
    /\ shape out = (shape0 a, output_size)
    /\ wf out = true.
Proof.
  intros Hb Hwf Ha.
  destruct (built_layers _ _ _ Hb) as (H1 & H2 & H3 & I1 & I2 & I3 & O3).
  destruct (apply_linear fc1 a H1 ltac:(congruence)) as (b1 & E1 & S1 & W1).
  destruct (apply_relu b1 W1) as (r1 & E2 & S2 & W2).
  assert (Sr1 : shape1 r1 = in_features fc2)
    by (rewrite S1 in S2; injection S2 as _ ->; now symmetry).
  destruct (apply_linear fc2 r1 H2 Sr1) as (b2 & E3 & S3 & W3).
  destruct (apply_relu b2 W3) as (r2 & E4 & S4 & W4).
  assert (Sr2 : shape1 r2 = in_features logits)
    by (rewrite S3 in S4; injection S4 as _ ->; now symmetry).
  destruct (apply_linear logits r2 H3 Sr2) as (out & E5 & S5 & W5).
  exists out. unfold model. cbn [sequential].
  rewrite E1, E2, E3, E4, E5. split; [reflexivity|]. split; [|exact W5].
  rewrite S5, O3. f_equal.
  rewrite S3 in S4. injection S4 as -> _.
  rewrite S1 in S2. now injection S2 as -> _.
Qed.

(** X15: for all weights and biases of the sizes the hyperparameters
    give, the network maps a batch of [n] rows of 784 entries to [n] rows
    of 10 logits, and refuses a batch whose rows have another length. *)
Theorem network_output_shape (fc1 fc2 logits : Linear) (a : ndarray2 R) :
  built fc1 fc2 logits = true ->
  wf a = true ->
  (shape1 a = input_size ->
   exists out,
     sequential (model fc1 fc2 logits) a = Some out
     /\ shape out = (shape0 a, output_size)
     /\ wf out = true)
  /\ (shape1 a <> input_size ->
      sequential (model fc1 fc2 logits) a = None).
Proof.
  intros Hb Hwf. split; [now apply forward_ok|].
  intros Hne.
  destruct (built_layers _ _ _ Hb) as (_ & _ & _ & I1 & _).
  unfold model. cbn [sequential apply_layer].
  rewrite I1. apply Nat.eqb_neq in Hne. now rewrite Hne.
Qed.

(** X15 with all weights 0 and a batch of two blank images. *)
Lemma network_output_shape_witness :
  let fc1 := zero_linear 784 128 in
  let fc2 := zero_linear 128 64 in
  let logits := zero_linear 64 10 in
  let a := mk_ndarray2 784 (repeat (repeat 0 784) 2) in
  (shape1 a = input_size ->
   exists out,
     sequential (model fc1 fc2 logits) a = Some out
     /\ shape out = (shape0 a, output_size)
     /\ wf out = true)
  /\ (shape1 a <> input_size ->
      sequential (model fc1 fc2 logits) a = None).
Proof.
  intros fc1 fc2 logits a.
  apply (@network_output_shape fc1 fc2 logits a).
  - reflexivity.
  - reflexivity.
Defined.

(** *** Softmax *)

Lemma sum_exp_pos (l : list R) : l <> [] -> 0 < np.sum (map exp l).
Proof.
  intros Hne. destruct l as [|x l]; [congruence|].
  apply sum_pos with (x := exp x).
  - intros y Hy. apply in_map_iff in Hy as (v & <- & _). left. apply exp_pos.
  - now left.
  - apply exp_pos.
Qed.

Lemma le_sum_nonneg (l : list R) (x : R) :
  (forall y, In y l -> 0 <= y) -> In x l -> x <= np.sum l.
Proof.
  induction l as [|z l IH]; intros H Hx; [destruct Hx|].
  change (np.sum (z :: l)) with (z + np.sum l).
  assert (0 <= z) by (apply H; now left).
  assert (0 <= np.sum l) by (apply sum_nonneg; intros y Hy; apply H; now right).
  destruct Hx as [->|Hx]; [lra|].
  assert (x <= np.sum l) by (apply IH; auto; intros y Hy; apply H; now right).
  lra.
Qed.


Lemma softmax_row_sum (l : list R) : l <> [] -> np.sum (softmax_row l) = 1.
Proof.
  intros Hne. unfold softmax_row.
  pose proof (sum_exp_pos Hne) as Hs.
  rewrite (map_ext _ (fun x => / np.sum (map exp l) * exp x))
    by (intros; unfold Rdiv; ring).
  rewrite sum_map_scale. apply Rinv_l. lra.
Qed.

Lemma softmax_row_range (l : list R) (p : R) :
  In p (softmax_row l) -> 0 < p <= 1.
Proof.
  intros Hp. unfold softmax_row in Hp.
  apply in_map_iff in Hp as (x & <- & Hx).
  assert (Hne : l <> []) by (intros ->; destruct Hx).
  pose proof (sum_exp_pos Hne) as Hs.
  pose proof (exp_pos x) as Hx0.
  assert (Hle : exp x <= np.sum (map exp l)).
  { apply le_sum_nonneg; [|now apply in_map].
    intros y Hy. apply in_map_iff in Hy as (v & <- & _). left. apply exp_pos. }
  split.
  - apply Rdiv_lt_0_compat; assumption.
  - apply Rmult_le_reg_r with (np.sum (map exp l)); [exact Hs|].
    unfold Rdiv. rewrite Rmult_assoc, Rinv_l by lra. lra.
Qed.

(** X16: the predictions are probabilities.  For all weights and biases
    of the sizes the hyperparameters give and every batch of images of
    784 entries, the softmax of the network's output has one row of 10
    entries per image, every entry above 0 and at most 1, and every row
    sums to 1. *)
Theorem predictions_are_probabilities (fc1 fc2 logits : Linear)
  (img : ndarray2 R) :
  built fc1 fc2 logits = true ->
  wf img = true ->
  shape1 img = input_size ->
  exists out,
    sequential (model fc1 fc2 logits) img = Some out
    /\ shape (softmax out) = (shape0 img, output_size)
    /\ forall ps, In ps (data (softmax out)) ->
         length ps = output_size
         /\ np.sum ps = 1
         /\ forall p, In p ps -> 0 < p <= 1.
Proof.
  intros Hb Hwf Hi.
  destruct (forward_ok fc1 fc2 logits img Hb Hwf Hi) as (out & E & S & W).
  exists out. split; [exact E|]. split.
  - unfold shape, shape0, softmax in *. cbn [data shape1].
    now rewrite length_map.
  - intros ps Hps. unfold softmax in Hps. cbn [data] in Hps.
    apply in_map_iff in Hps as (row & <- & Hrow).
    assert (Hlen : length row = output_size).
    { rewrite (wf_rows out row W Hrow).
      unfold shape in S. now injection S as _ ->. }
    split; [unfold softmax_row; now rewrite length_map|].
    split; [|intros p; apply softmax_row_range].
    apply softmax_row_sum. intros ->. unfold output_size in Hlen.
    simpl in Hlen. lia.
Qed.

(** X16 with all weights 0 and one blank image. *)
Lemma predictions_are_probabilities_witness :
  let fc1 := zero_linear 784 128 in
  let fc2 := zero_linear 128 64 in
  let logits := zero_linear 64 10 in
  let img := mk_ndarray2 784 [repeat 0 784] in
  exists out,
    sequential (model fc1 fc2 logits) img = Some out
    /\ shape (softmax out) = (shape0 img, output_size)
    /\ forall ps, In ps (data (softmax out)) ->
         length ps = output_size
         /\ np.sum ps = 1
         /\ forall p, In p ps -> 0 < p <= 1.
Proof.
  intros fc1 fc2 logits img.
  apply (@predictions_are_probabilities fc1 fc2 logits img);
    reflexivity.
Defined.



End NetworkFacts.

(** ** The autograd example: the gradient of the mean of squares *)

Module AutogradFacts.

Import Autograd.

#[local] Open Scope R_scope.






End AutogradFacts.

(** ** The transform of the images *)

Module TransformFacts.

Import Transform.

#[local] Open Scope R_scope.

(** X19: the transform of the loader maps the pixel values 0 .. 255 into
    the interval from -1 to 1: black to -1, white to 1, and a brighter
    pixel never to a smaller value. *)
Theorem transform_range (p q : Z) :
  (0 <= p <= 255)%Z ->
  (0 <= q <= 255)%Z ->
  -1 <= transform p <= 1
  /\ (transform p <= transform q <-> (p <= q)%Z)
  /\ transform 0 = -1
  /\ transform 255 = 1.
Proof.
  intros [Hp0 Hp1] [Hq0 Hq1].
  apply IZR_le in Hp0, Hp1.
  unfold transform, normalize, to_tensor.
  assert (E : forall r, (IZR r / 255 - 1 / 2) / (1 / 2) = 2 * IZR r / 255 - 1)
    by (intros; field).
  rewrite !E.
  split; [lra|]. split; [|lra].
  split; intros H.
  - apply le_IZR. lra.
  - apply IZR_le in H. lra.
Qed.

(** X19 at the pixel values 0 and 128. *)
Lemma transform_range_witness :
  -1 <= transform 0 <= 1
  /\ (transform 0 <= transform 128 <-> (0 <= 128)%Z)
  /\ transform 0 = -1
  /\ transform 255 = 1.
Proof.
  apply (@transform_range 0 128); lia.
Defined.

End TransformFacts.
